(** * CUDA HAL driver (iree/hal/cuda/cuda_driver.c): driver construction,
      device enumeration and device creation.

    The C translation unit is embedded function by function.  Everything the
    C code reaches through a pointer (the host allocator, the block it
    returns, the native entry points behind [driver->syms]) is threaded
    through an explicit machine state; a computation is a function from that
    state to an optional result, [None] standing for an execution the C
    standard leaves undefined (a call through an unresolved entry point, a
    [strlen] that runs off the end of its array). *)

From Stdlib Require Import ZArith Bool Ascii String List Lia.
Import ListNotations.
Local Open Scope Z_scope.

(** ** Machine integers

    The integer types of the translation unit are fixed by headers outside
    the sources; they are taken as on an LP64 target.  [int] has 32 bits,
    and so has [CUdevice], which the CUDA driver API declares as [int];
    [iree_host_size_t] and [iree_hal_device_id_t] are the unsigned
    pointer-sized integers [size_t] and [uintptr_t], of 64 bits.  Values
    are integers of [Z]; the conversions wrap. *)

(** Conversion to [int] and to [CUdevice]. *)
Definition to_int (z : Z) : Z := (z + 2 ^ 31) mod 2 ^ 32 - 2 ^ 31.

(** Conversion to [iree_host_size_t] and to [iree_hal_device_id_t]. *)
Definition to_size (z : Z) : Z := z mod 2 ^ 64.

Definition int_range (z : Z) : Prop := - 2 ^ 31 <= z < 2 ^ 31.
Definition size_range (z : Z) : Prop := 0 <= z < 2 ^ 64.

(** ** Status values *)

Inductive iree_status_code_t :=
| IREE_STATUS_OK
| IREE_STATUS_INVALID_ARGUMENT
| IREE_STATUS_NOT_FOUND
| IREE_STATUS_RESOURCE_EXHAUSTED
| IREE_STATUS_UNAVAILABLE
| IREE_STATUS_INTERNAL.

(** A status is either ok or a category with a printf-style message: the
    format string and the integers substituted into it. *)
Inductive iree_status_t :=
| iree_ok_status
| iree_make_status (code : iree_status_code_t) (format : string)
                   (args : list Z).

Definition iree_status_is_ok (s : iree_status_t) : bool :=
  match s with iree_ok_status => true | _ => false end.

Definition iree_status_code (s : iree_status_t) : iree_status_code_t :=
  match s with
  | iree_ok_status => IREE_STATUS_OK
  | iree_make_status c _ _ => c
  end.

Definition CUresult := Z.
Definition CUDA_SUCCESS : CUresult := 0.
Definition CUDA_ERROR_INVALID_DEVICE : CUresult := 101.

(** Modelled from the spec: the macro [CU_RESULT_TO_STATUS] (status_util.h)
    is missing.  "Native error codes are translated into this taxonomy with
    the original code and a descriptive message preserved": success maps to
    the ok status, any other code to a generic native-operation failure that
    names the entry point and carries the code.  [CUDA_RETURN_IF_ERROR] of
    the same header returns that status from the enclosing function when it
    is not ok, and [CUDA_IGNORE_ERROR] drops it; both are written out where
    the code uses them. *)
Definition CU_RESULT_TO_STATUS (result : CUresult) (api : string)
  : iree_status_t :=
  if result =? CUDA_SUCCESS then iree_ok_status
  else iree_make_status IREE_STATUS_INTERNAL api [result].

(** ** Pointers, blocks and the machine state *)

(** A pointer is a block handed out by the allocator and a byte offset. *)
Record pointer := mk_pointer { blk : nat; off : Z }.

Definition pointer_eqb (p q : pointer) : bool :=
  Nat.eqb (blk p) (blk q) && (off p =? off q).

Definition pointer_add (p : pointer) (n : Z) : pointer :=
  mk_pointer (blk p) (off p + n).

(** What the host side does, in program order. *)
Inductive host_event :=
| EvMalloc (size : Z) (result : option nat)
| EvFree (block : option nat)
| EvLoadSymbols (ok : bool)
| EvUnloadSymbols (was_loaded : bool).

(** Native entry points invoked through the symbol table. *)
Inductive cu_call :=
| CallInit (flags : Z)
| CallDeviceGetCount
| CallDeviceGet (ordinal : Z)
| CallDeviceGetName (len : Z) (device : Z)
| CallDeviceCreate (label : string) (device : Z).

(** [mem] holds the characters the code copies into blocks (the identifier
    behind the driver header, the device names behind the device records).
    The fields of the structs themselves are kept as typed records, not as
    bytes of [mem]. *)
Record state := mk_state {
  host_log : list host_event;
  live : list (nat * Z);          (* outstanding allocations: block, size *)
  next_block : nat;
  cu_log : list cu_call;
  mem : list (pointer * ascii)    (* characters stored, most recent first *)
}.

Definition initial_state : state := mk_state [] [] 0 [] [].

(** ** The computation monad: state passing, [None] for undefined. *)

Definition M (A : Type) : Type := state -> option (A * state).

Definition ret {A} (a : A) : M A := fun s => Some (a, s).

Definition bind {A B} (m : M A) (k : A -> M B) : M B :=
  fun s => match m s with
           | Some (a, s') => k a s'
           | None => None
           end.

Definition undefined {A} : M A := fun _ => None.

Declare Scope cmd_scope.
Delimit Scope cmd_scope with cmd.
Notation "x <- m ;; k" := (bind m (fun x => k))
  (at level 61, m at next level, right associativity) : cmd_scope.
Notation "' p <- m ;; k" := (bind m (fun x => let p := x in k))
  (at level 61, p pattern, m at next level, right associativity) : cmd_scope.
Notation "m ;;; k" := (bind m (fun _ => k))
  (at level 61, right associativity) : cmd_scope.
Local Open Scope cmd_scope.

Definition log_host (e : host_event) : M unit :=
  fun s => Some (tt, mk_state (host_log s ++ [e]) (live s) (next_block s)
                              (cu_log s) (mem s)).

Definition log_cu (c : cu_call) : M unit :=
  fun s => Some (tt, mk_state (host_log s) (live s) (next_block s)
                              (cu_log s ++ [c]) (mem s)).

(** ** Byte memory *)

Fixpoint store_bytes (p : pointer) (bs : list ascii)
         (m : list (pointer * ascii)) : list (pointer * ascii) :=
  match bs with
  | [] => m
  | b :: bs' => store_bytes (pointer_add p 1) bs' ((p, b) :: m)
  end.

Fixpoint load_byte (m : list (pointer * ascii)) (p : pointer)
  : option ascii :=
  match m with
  | [] => None
  | (q, b) :: m' => if pointer_eqb q p then Some b else load_byte m' p
  end.

Fixpoint load_bytes (m : list (pointer * ascii)) (p : pointer) (n : nat)
  : list (option ascii) :=
  match n with
  | O => []
  | S n' => load_byte m p :: load_bytes m (pointer_add p 1) n'
  end.

Definition memcpy (dst : pointer) (src : list ascii) : M unit :=
  fun s => Some (tt, mk_state (host_log s) (live s) (next_block s)
                              (cu_log s) (store_bytes dst src (mem s))).

(** ** Host allocator *)

(** Modelled from the spec: the allocator is an external collaborator
    ("an allocator capability: allocate(size) -> memory, free(memory)")
    supplied by the caller.  It is a policy that grants or refuses a request
    of a given size; granting hands out a fresh block. *)
Record iree_allocator_t := mk_allocator {
  alloc_status : Z -> iree_status_t
}.

Definition iree_allocator_malloc (a : iree_allocator_t) (byte_length : Z)
  : M (iree_status_t * option nat) :=
  fun s =>
    let st := alloc_status a byte_length in
    if iree_status_is_ok st then
      let b := next_block s in
      Some ((iree_ok_status, Some b),
            mk_state (host_log s ++ [EvMalloc byte_length (Some b)])
                     ((b, byte_length) :: live s) (S b) (cu_log s) (mem s))
    else
      Some ((st, None),
            mk_state (host_log s ++ [EvMalloc byte_length None])
                     (live s) (next_block s) (cu_log s) (mem s)).

Definition remove_block (b : nat) (l : list (nat * Z)) : list (nat * Z) :=
  filter (fun e => negb (Nat.eqb (fst e) b)) l.

Definition iree_allocator_free (a : iree_allocator_t) (p : option nat)
  : M unit :=
  fun s =>
    Some (tt, mk_state (host_log s ++ [EvFree p])
                       (match p with
                        | Some b => remove_block b (live s)
                        | None => live s
                        end)
                       (next_block s) (cu_log s) (mem s)).

(** ** String views *)

Record iree_string_view_t := mk_string_view {
  data : option pointer;
  size : Z
}.

Definition iree_string_view_empty : iree_string_view_t :=
  mk_string_view None 0.

(** Modelled from the spec: [iree_string_view_append_to_buffer]
    (string_view.h) is missing.  "Copy the identifier bytes into the
    trailing region and record a view into that region": the source bytes
    are copied to [buffer], the target view is set to [buffer] with the
    source length, and that length is returned. *)
Definition iree_string_view_append_to_buffer (source : list ascii)
           (buffer : pointer) : M (Z * iree_string_view_t) :=
  memcpy buffer source ;;;
  ret (Z.of_nat (length source),
       mk_string_view (Some buffer) (Z.of_nat (length source))).

(** The bytes a view denotes in memory. *)
Definition view_bytes (m : list (pointer * ascii)) (v : iree_string_view_t)
  : list (option ascii) :=
  match data v with
  | Some p => load_bytes m p (Z.to_nat (size v))
  | None => []
  end.

(** ** The native entry points *)

(** The function table behind [driver->syms].  An entry point that writes
    through an out-pointer returns the value it writes next to its result
    code; [cuDeviceGetName name len dev] returns the bytes it stores at
    [name[0..]]. *)
Record iree_hal_cuda_dynamic_symbols_t := mk_symbols {
  cuInit : Z -> CUresult;
  cuDeviceGetCount : CUresult * Z;
  cuDeviceGet : Z -> CUresult * Z;
  cuDeviceGetName : Z -> Z -> CUresult * list ascii
}.

(** ** Resources, options, drivers, devices *)

Inductive vtable_t := iree_hal_cuda_driver_vtable.

Record iree_hal_resource_t := mk_resource {
  ref_count : Z;
  vtable : vtable_t
}.

(** Modelled from the spec: [iree_hal_resource_initialize] (resource.h) is
    missing.  "Initialize the resource header with the driver's destruction
    vtable"; the creator holds the first reference. *)
Definition iree_hal_resource_initialize (v : vtable_t) : iree_hal_resource_t :=
  mk_resource 1 v.

Record iree_hal_cuda_driver_options_t := mk_options {
  opt_default_device_index : Z
}.

Definition iree_hal_cuda_driver_options_initialize
  : iree_hal_cuda_driver_options_t :=
  mk_options 0.

Record iree_hal_cuda_driver_t := mk_driver {
  self : nat;                            (* the block holding the driver *)
  resource : iree_hal_resource_t;
  host_allocator : iree_allocator_t;
  identifier : iree_string_view_t;
  default_device_index : Z;
  syms : option iree_hal_cuda_dynamic_symbols_t   (* [None]: not loaded *)
}.

Record iree_hal_device_info_t := mk_device_info {
  device_id : Z;
  name : iree_string_view_t
}.

Record iree_hal_device_t := mk_device {
  device_label : string;
  device_handle : Z
}.

Definition IREE_MAX_CUDA_DEVICE_NAME_LENGTH : Z := 100.

(** Modelled from the spec: the constant is declared in a header outside
    the sources.  It is the "sentinel unspecified value" of a device id;
    the code compares the handle an id converts to with the literal 0
    (cuda_driver.c:188), so the sentinel is the id 0. *)
Definition IREE_HAL_DEVICE_ID_INVALID : Z := 0.

(** What the translation unit takes from its surroundings: the sizes of the
    two structs (their declarations are in headers that are not part of the
    sources), the indeterminate bytes found in the local array
    [device_name] when [iree_hal_cuda_populate_device_info] is entered for a
    device, what opening the native library yields, and what constructing a
    device on a native handle yields. *)
Record environment := mk_environment {
  sizeof_driver : Z;
  sizeof_device_info : Z;
  indeterminate : Z -> nat -> ascii;
  library_status : iree_status_t;
  library_symbols : iree_hal_cuda_dynamic_symbols_t;
  device_create_status : Z -> iree_status_t
}.

(** C [strlen] on an array: the index of the first terminator; running off
    the end of the array is undefined. *)
Fixpoint strlen (s : list ascii) : option nat :=
  match s with
  | [] => None
  | c :: s' => if Ascii.eqb c zero then Some O else option_map S (strlen s')
  end.

Section Driver.

Variable env : environment.

(** Modelled from the spec: [load_symbols] (dynamic_symbols.h) is missing.
    "Either ALL required symbols resolve successfully, in which case the
    table is loaded and usable, or load fails atomically and no
    partially-populated table is exposed". *)
Definition load_symbols
  : M (iree_status_t * option iree_hal_cuda_dynamic_symbols_t) :=
  if iree_status_is_ok (library_status env) then
    log_host (EvLoadSymbols true) ;;;
    ret (iree_ok_status, Some (library_symbols env))
  else
    log_host (EvLoadSymbols false) ;;;
    ret (library_status env, None).

(** Modelled from the spec: [unload_symbols] (dynamic_symbols.h) is missing.
    "[unload()] closes the native library handle"; it "must be safe to
    invoke on a driver whose symbol table failed to load". *)
Definition unload_symbols (t : option iree_hal_cuda_dynamic_symbols_t)
  : M (option iree_hal_cuda_dynamic_symbols_t) :=
  log_host (EvUnloadSymbols (match t with Some _ => true | None => false end)) ;;;
  ret None.

(** cuda_driver.c:73 *)
Definition iree_hal_cuda_driver_destroy (driver : iree_hal_cuda_driver_t)
  : M unit :=
  let host_allocator := host_allocator driver in
  _ <- unload_symbols (syms driver) ;;
  iree_allocator_free host_allocator (Some (self driver)).

(** Modelled from the spec: [iree_hal_driver_release] (driver.h) is missing.
    "A resource is destroyed exactly once, only when its reference count
    reaches zero": the count is decremented and the vtable's destroy entry
    runs when it reaches zero.  The result is the driver that is still
    alive, if any. *)
Definition iree_hal_driver_release (driver : iree_hal_cuda_driver_t)
  : M (option iree_hal_cuda_driver_t) :=
  let count := ref_count (resource driver) - 1 in
  if count =? 0 then
    match vtable (resource driver) with
    | iree_hal_cuda_driver_vtable =>
        iree_hal_cuda_driver_destroy driver ;;; ret None
    end
  else
    ret (Some (mk_driver (self driver)
                         (mk_resource count (vtable (resource driver)))
                         (host_allocator driver) (identifier driver)
                         (default_device_index driver) (syms driver))).

(** cuda_driver.c:50.  The result is the status and what [*out_driver] was
    set to ([None]: never assigned). *)
Definition iree_hal_cuda_driver_create_internal
           (identifier : list ascii)
           (options : iree_hal_cuda_driver_options_t)
           (host_allocator : iree_allocator_t)
  : M (iree_status_t * option iree_hal_cuda_driver_t) :=
  let identifier_size := Z.of_nat (length identifier) in
  let total_size := to_size (sizeof_driver env + identifier_size) in
  '(st, driver) <- iree_allocator_malloc host_allocator total_size ;;
  if negb (iree_status_is_ok st) then ret (st, None) else
  match driver with
  | None => undefined
  | Some driver =>
      let resource := iree_hal_resource_initialize iree_hal_cuda_driver_vtable in
      '(_, view) <- iree_string_view_append_to_buffer identifier
                      (mk_pointer driver (total_size - identifier_size)) ;;
      let default_device_index := opt_default_device_index options in
      '(status, table) <- load_symbols ;;
      let d := mk_driver driver resource host_allocator view
                         default_device_index table in
      if iree_status_is_ok status then
        ret (status, Some d)
      else
        _ <- iree_hal_driver_release d ;;
        ret (status, None)
  end.

(** cuda_driver.c:84 *)
Definition iree_hal_cuda_driver_create
           (identifier : list ascii)
           (options : iree_hal_cuda_driver_options_t)
           (host_allocator : iree_allocator_t)
  : M (iree_status_t * option iree_hal_cuda_driver_t) :=
  iree_hal_cuda_driver_create_internal identifier options host_allocator.

(** ** Device enumeration *)

(** The native symbol table of a driver; calling through a table that is
    not loaded is undefined. *)
Definition driver_syms (driver : iree_hal_cuda_driver_t)
  : M iree_hal_cuda_dynamic_symbols_t :=
  match syms driver with
  | Some t => ret t
  | None => undefined
  end.

(** The local array [char device_name[100]] after the name query: the bytes
    the native call stored (at most the [len] it was given), the rest as
    found on entry. *)
Definition device_name_buffer (syms : iree_hal_cuda_dynamic_symbols_t)
           (device : Z) : list ascii :=
  let len := IREE_MAX_CUDA_DEVICE_NAME_LENGTH in
  let written := firstn (Z.to_nat len) (snd (cuDeviceGetName syms len device)) in
  map (fun k => match nth_error written k with
                | Some c => c
                | None => indeterminate env device k
                end)
      (seq 0 (Z.to_nat len)).

(** cuda_driver.c:102.  Returns the advanced [buffer_ptr] and the record
    stored through [out_device_info]. *)
Definition iree_hal_cuda_populate_device_info
           (device : Z) (syms : iree_hal_cuda_dynamic_symbols_t)
           (buffer_ptr : pointer)
  : M (pointer * iree_hal_device_info_t) :=
  (* CUDA_IGNORE_ERROR: the result code is dropped. *)
  log_cu (CallDeviceGetName IREE_MAX_CUDA_DEVICE_NAME_LENGTH device) ;;;
  let device_name := device_name_buffer syms device in
  let device_id := to_size device in
  match strlen device_name with
  | None => undefined
  | Some n =>
      let device_name_string := firstn n device_name in
      '(appended, view) <- iree_string_view_append_to_buffer
                             device_name_string buffer_ptr ;;
      ret (pointer_add buffer_ptr appended, mk_device_info device_id view)
  end.

(** [device_infos[i] = info] on the allocated array. *)
Fixpoint store_info (i : nat) (info : iree_hal_device_info_t)
         (a : list (option iree_hal_device_info_t))
  : list (option iree_hal_device_info_t) :=
  match a, i with
  | [], _ => []
  | _ :: a', O => Some info :: a'
  | x :: a', S i' => x :: store_info i' info a'
  end.

(** cuda_driver.c:131, the loop that adds the name bytes to [total_size]. *)
Fixpoint add_name_sizes (n : nat) (total_size : Z) : Z :=
  match n with
  | O => total_size
  | S n' => add_name_sizes n' (to_size (total_size + IREE_MAX_CUDA_DEVICE_NAME_LENGTH * 1))
  end.

(** cuda_driver.c:139, the loop that fills the array: [n] iterations remain,
    [i] is the loop counter.  The [status] declared in the body shadows the
    one of the function, so a failed [cuDeviceGet] only leaves the loop. *)
Fixpoint populate_devices (syms : iree_hal_cuda_dynamic_symbols_t)
         (n : nat) (i : Z) (buffer_ptr : pointer)
         (device_infos : list (option iree_hal_device_info_t))
  : M (pointer * list (option iree_hal_device_info_t)) :=
  match n with
  | O => ret (buffer_ptr, device_infos)
  | S n' =>
      log_cu (CallDeviceGet (to_int i)) ;;;
      let '(result, device) := cuDeviceGet syms (to_int i) in
      let status := CU_RESULT_TO_STATUS result "cuDeviceGet" in
      if negb (iree_status_is_ok status) then ret (buffer_ptr, device_infos)
      else
        '(buffer_ptr', info) <- iree_hal_cuda_populate_device_info
                                  device syms buffer_ptr ;;
        populate_devices syms n' (to_size (i + 1)) buffer_ptr'
                         (store_info (Z.to_nat i) info device_infos)
  end.

(** What the caller of the enumeration gets: the status and what the two
    out-parameters were set to ([None]: never assigned).  The array is the
    block it lives in and its records, [None] for a record that was never
    written. *)
Record query_result := mk_query_result {
  query_status : iree_status_t;
  out_device_infos : option (nat * list (option iree_hal_device_info_t));
  out_device_info_count : option Z
}.

(** cuda_driver.c:118 *)
Definition iree_hal_cuda_driver_query_available_devices
           (driver : iree_hal_cuda_driver_t) (host_allocator : iree_allocator_t)
  : M query_result :=
  syms <- driver_syms driver ;;
  log_cu CallDeviceGetCount ;;;
  let '(result, device_count) := cuDeviceGetCount syms in
  let counted := CU_RESULT_TO_STATUS result "cuDeviceGetCount" in
  if negb (iree_status_is_ok counted) then
    ret (mk_query_result counted None None)
  else
    let iterations := Z.to_nat (to_size device_count) in
    let total_size := to_size (to_size device_count * sizeof_device_info env) in
    let total_size := add_name_sizes iterations total_size in
    '(status, device_infos) <- iree_allocator_malloc host_allocator total_size ;;
    filled <-
      (if iree_status_is_ok status then
         match device_infos with
         | None => undefined
         | Some b =>
             let buffer_ptr :=
               mk_pointer b (to_size (to_size device_count
                                      * sizeof_device_info env)) in
             '(_, a) <- populate_devices syms iterations 0 buffer_ptr
                          (repeat None iterations) ;;
             ret a
         end
       else ret []) ;;
    if iree_status_is_ok status then
      match device_infos with
      | None => undefined
      | Some b =>
          ret (mk_query_result status (Some (b, filled))
                               (Some (to_size device_count)))
      end
    else
      iree_allocator_free host_allocator device_infos ;;;
      ret (mk_query_result status None None).

(** ** Device creation *)

(** cuda_driver.c:157.  Returns the status and what [*out_device] was set
    to. *)
Definition iree_hal_cuda_driver_select_default_device
           (syms : iree_hal_cuda_dynamic_symbols_t) (default_device_index : Z)
           (host_allocator : iree_allocator_t)
  : M (iree_status_t * option Z) :=
  log_cu CallDeviceGetCount ;;;
  let '(result, device_count) := cuDeviceGetCount syms in
  let counted := CU_RESULT_TO_STATUS result "cuDeviceGetCount" in
  if negb (iree_status_is_ok counted) then ret (counted, None)
  else
    let status := iree_ok_status in
    if (device_count =? 0) || (default_device_index >=? device_count) then
      ret (iree_make_status IREE_STATUS_NOT_FOUND
             "default device %d not found (of %d enumerated)"
             [default_device_index; device_count], None)
    else
      log_cu (CallDeviceGet default_device_index) ;;;
      let '(result, device) := cuDeviceGet syms default_device_index in
      let resolved := CU_RESULT_TO_STATUS result "cuDeviceGet" in
      if negb (iree_status_is_ok resolved) then ret (resolved, None)
      else
        ret (status, Some device).

(** Modelled from the spec: [iree_hal_cuda_device_create] (cuda_device.h) is
    missing.  "Construct the Device resource, associating it with a fixed
    human-readable label for the backend kind and the Driver's symbol
    table"; whether construction succeeds on a handle is the
    environment's. *)
Definition iree_hal_cuda_device_create (device_name : string) (device : Z)
  : M (iree_status_t * option iree_hal_device_t) :=
  log_cu (CallDeviceCreate device_name device) ;;;
  let status := device_create_status env device in
  if iree_status_is_ok status then
    ret (status, Some (mk_device device_name device))
  else ret (status, None).

(** cuda_driver.c:177 *)
Definition iree_hal_cuda_driver_create_device
           (driver : iree_hal_cuda_driver_t) (device_id : Z)
           (host_allocator : iree_allocator_t)
  : M (iree_status_t * option iree_hal_device_t) :=
  syms <- driver_syms driver ;;
  log_cu (CallInit 0) ;;;
  let init := CU_RESULT_TO_STATUS (cuInit syms 0) "cuInit" in
  if negb (iree_status_is_ok init) then ret (init, None) else
  let device := to_int device_id in
  selected <-
    (if device =? 0 then
       iree_hal_cuda_driver_select_default_device
         syms (default_device_index driver) host_allocator
     else ret (iree_ok_status, Some device)) ;;
  let '(status, chosen) := selected in
  if negb (iree_status_is_ok status) then ret (status, None) else
  match chosen with
  | None => undefined
  | Some device => iree_hal_cuda_device_create "cuda" device
  end.

End Driver.

(** * Vocabulary of the statements *)

(** ** States reached along the way *)

(** The state after one more native call. *)
Definition after_call (s : state) (c : cu_call) : state :=
  mk_state (host_log s) (live s) (next_block s) (cu_log s ++ [c]) (mem s).

(** The state of the enumeration after the count query and the granted
    request for [size] bytes. *)
Definition after_malloc (s : state) (size : Z) : state :=
  mk_state (host_log s ++ [EvMalloc size (Some (next_block s))])
           ((next_block s, size) :: live s) (S (next_block s))
           (cu_log s ++ [CallDeviceGetCount]) (mem s).

(** The state of driver creation after the driver block was granted and the
    identifier was copied into it; [log] is what the host did since, and
    [alive] the outstanding allocations. *)
Definition after_identifier (env : environment) (ident : list ascii)
           (s : state) (log : list host_event) (alive : list (nat * Z))
  : state :=
  let total := to_size (sizeof_driver env + Z.of_nat (length ident)) in
  mk_state (host_log s ++ EvMalloc total (Some (next_block s)) :: log)
           alive (S (next_block s)) (cu_log s)
           (store_bytes (mk_pointer (next_block s)
                                    (total - Z.of_nat (length ident)))
                        ident (mem s)).

(** Every outstanding block was handed out before [next_block]. *)
Definition heap_wf (s : state) : Prop :=
  forall b sz, In (b, sz) (live s) -> (b < next_block s)%nat.

(** ** The enumeration *)

(** [cuDeviceGet] succeeds at loop counter [i]. *)
Definition resolves (syms : iree_hal_cuda_dynamic_symbols_t) (i : Z) : bool :=
  iree_status_is_ok
    (CU_RESULT_TO_STATUS (fst (cuDeviceGet syms (to_int i))) "cuDeviceGet").

(** The native handle at loop counter [i]. *)
Definition handle_at (syms : iree_hal_cuda_dynamic_symbols_t) (i : Z) : Z :=
  snd (cuDeviceGet syms (to_int i)).

(** Every local name array holds a terminator when [strlen] reads it. *)
Definition terminated (env : environment)
           (syms : iree_hal_cuda_dynamic_symbols_t) : Prop :=
  forall device, strlen (device_name_buffer env syms device) <> None.

(** The size [iree_hal_cuda_driver_query_available_devices] asks the
    allocator for when the count query stored [device_count]. *)
Definition query_total_size (env : environment) (device_count : Z) : Z :=
  add_name_sizes (Z.to_nat (to_size device_count))
                 (to_size (to_size device_count * sizeof_device_info env)).

(** The same entry points with every name query reporting success. *)
Definition name_results_dropped (t : iree_hal_cuda_dynamic_symbols_t)
  : iree_hal_cuda_dynamic_symbols_t :=
  mk_symbols (cuInit t) (cuDeviceGetCount t) (cuDeviceGet t)
             (fun len device =>
                (CUDA_SUCCESS, snd (cuDeviceGetName t len device))).

(** ** Device creation *)

(** The status of a default index that is not among the enumerated
    devices (cuda_driver.c:165). *)
Definition default_device_not_found (d N : Z) : iree_status_t :=
  iree_make_status IREE_STATUS_NOT_FOUND
    "default device %d not found (of %d enumerated)" [d; N].

(** What [iree_hal_cuda_driver_create_device] does with the outcome of
    choosing a native handle (cuda_driver.c:189 and 195-200). *)
Definition create_on (env : environment) (selected : iree_status_t * option Z)
  : M (iree_status_t * option iree_hal_device_t) :=
  let '(status, chosen) := selected in
  if negb (iree_status_is_ok status) then ret (status, None) else
  match chosen with
  | None => undefined
  | Some device => iree_hal_cuda_device_create env "cuda" device
  end.

(** ** A simulated backend, for running the code on concrete inputs *)

(** Modelled from the spec: the native library is not part of the sources.
    The name query is "bounded to [MAX_NAME_LENGTH], truncated if longer":
    given [len] bytes it stores at most [len - 1] bytes of the device's name
    followed by the terminator. *)
Definition native_device_name (nm : list ascii) (len : Z) : list ascii :=
  firstn (Z.to_nat (len - 1)) nm ++ [zero].

Definition nowhere (_ : Z) : bool := false.

(** Devices are numbered from 0 and the native handle of a device is its
    ordinal.  [names] are the device names, [broken] the ordinals whose
    handle query fails, [nameless] the handles whose name query fails
    (storing nothing). *)
Definition simulated_cuda (names : list string) (broken nameless : Z -> bool)
  : iree_hal_cuda_dynamic_symbols_t :=
  mk_symbols
    (fun _ => CUDA_SUCCESS)
    (CUDA_SUCCESS, Z.of_nat (length names))
    (fun ordinal =>
       if (0 <=? ordinal) && (ordinal <? Z.of_nat (length names))
          && negb (broken ordinal)
       then (CUDA_SUCCESS, ordinal)
       else (CUDA_ERROR_INVALID_DEVICE, 0))
    (fun len device =>
       match nth_error names (Z.to_nat device) with
       | Some nm =>
           if (0 <=? device) && negb (nameless device)
           then (CUDA_SUCCESS,
                 native_device_name (list_ascii_of_string nm) len)
           else (CUDA_ERROR_INVALID_DEVICE, [])
       | None => (CUDA_ERROR_INVALID_DEVICE, [])
       end).

(** An LP64 target: 24-byte device records (an 8-byte id, a 16-byte view),
    a 64-byte driver header, a zeroed stack; the library loads and devices
    can be created on every handle. *)
Definition simulated_env (t : iree_hal_cuda_dynamic_symbols_t) : environment :=
  mk_environment 64 24 (fun _ _ => zero) iree_ok_status t
                 (fun _ => iree_ok_status).

(** The same target without the native library. *)
Definition missing_library (t : iree_hal_cuda_dynamic_symbols_t)
  : environment :=
  mk_environment 64 24 (fun _ _ => zero)
                 (iree_make_status IREE_STATUS_UNAVAILABLE
                                   "CUDA driver library not found" [])
                 t (fun _ => iree_ok_status).


(** An allocator that grants every request. *)
Definition generous : iree_allocator_t := mk_allocator (fun _ => iree_ok_status).

(** An allocator that refuses empty requests. *)
Definition strict : iree_allocator_t :=
  mk_allocator (fun n =>
    if n =? 0 then iree_make_status IREE_STATUS_INVALID_ARGUMENT
                     "allocations must be >0 bytes" []
    else iree_ok_status).

(** A driver named "cuda", created on block 0 with the given default
    index, and the state its creation left. *)
Definition simulated_driver (t : iree_hal_cuda_dynamic_symbols_t)
           (default_index : Z) : iree_hal_cuda_driver_t :=
  mk_driver 0 (iree_hal_resource_initialize iree_hal_cuda_driver_vtable)
            generous (mk_string_view (Some (mk_pointer 0 64)) 4)
            default_index (Some t).

Definition heap_with_driver : state :=
  mk_state [EvMalloc 68 (Some 0%nat); EvLoadSymbols true] [(0%nat, 68)] 1 []
           (store_bytes (mk_pointer 0 64) (list_ascii_of_string "cuda") []).


(** ** The array and the calls of the filling loop *)

(** No record of the array from index [i] on has been written. *)
Definition unwritten_from (i : Z) (a : list (option iree_hal_device_info_t))
  : Prop :=
  forall j x, i <= Z.of_nat j -> nth_error a j <> Some (Some x).

(** The native calls the filling loop makes. *)
Definition enumeration_call (c : cu_call) : bool :=
  match c with
  | CallDeviceGet _ | CallDeviceGetName _ _ => true
  | _ => false
  end.

(** A pointer outside the part of a block that starts at [p]. *)
Definition outside (p q : pointer) : Prop :=
  blk q <> blk p \/ off q < off p.

(** * Properties *)

(** ** Machine integers *)

Lemma to_size_small (z : Z) : 0 <= z < 2 ^ 64 -> to_size z = z.
Proof. intros H. unfold to_size. apply Z.mod_small. exact H. Qed.

Lemma to_int_small (z : Z) : - 2 ^ 31 <= z < 2 ^ 31 -> to_int z = z.
Proof.
  intros H. unfold to_int. rewrite Z.mod_small by lia. lia.
Qed.

Lemma to_size_range (z : Z) : 0 <= to_size z < 2 ^ 64.
Proof. unfold to_size. apply Z.mod_pos_bound. lia. Qed.

Lemma add_name_sizes_spec (n : nat) (t : Z) :
  add_name_sizes n (to_size t)
  = to_size (t + IREE_MAX_CUDA_DEVICE_NAME_LENGTH * Z.of_nat n).
Proof.
  revert t. induction n as [|n IH]; intros t.
  - simpl. f_equal. lia.
  - cbn [add_name_sizes]. rewrite IH. unfold to_size.
    rewrite Nat2Z.inj_succ.
    replace (t mod 2 ^ 64 + IREE_MAX_CUDA_DEVICE_NAME_LENGTH * 1
             + IREE_MAX_CUDA_DEVICE_NAME_LENGTH * Z.of_nat n)
      with (t mod 2 ^ 64
            + (IREE_MAX_CUDA_DEVICE_NAME_LENGTH * Z.succ (Z.of_nat n))) by lia.
    rewrite Zplus_mod_idemp_l. reflexivity.
Qed.

(** The size handed to the allocator, for a count that is a non-negative
    [int] and a record size that fits 32 bits. *)
Lemma total_size_exact (S0 N : Z) :
  0 <= S0 < 2 ^ 32 -> 0 <= N < 2 ^ 31 ->
  add_name_sizes (Z.to_nat (to_size N)) (to_size (to_size N * S0))
  = N * S0 + N * IREE_MAX_CUDA_DEVICE_NAME_LENGTH.
Proof.
  intros HS HN. rewrite add_name_sizes_spec.
  rewrite (to_size_small N) by lia. rewrite Z2Nat.id by lia.
  unfold IREE_MAX_CUDA_DEVICE_NAME_LENGTH.
  rewrite (Z.mul_comm 100 N). apply to_size_small.
  change (2 ^ 32) with 4294967296 in HS.
  change (2 ^ 31) with 2147483648 in HN.
  change (2 ^ 64) with 18446744073709551616. nia.
Qed.

(** ** Byte memory *)

Lemma load_byte_store_below (bs : list ascii) :
  forall p m q, blk q = blk p -> off q < off p ->
    load_byte (store_bytes p bs m) q = load_byte m q.
Proof.
  induction bs as [|b bs IH]; intros p m q Hb Ho; simpl.
  - reflexivity.
  - rewrite IH by (simpl; lia). simpl.
    unfold pointer_eqb. replace (off p =? off q) with false
      by (symmetry; apply Z.eqb_neq; lia).
    rewrite andb_false_r. reflexivity.
Qed.

Lemma load_bytes_store_bytes (bs : list ascii) :
  forall p m, load_bytes (store_bytes p bs m) p (length bs) = map Some bs.
Proof.
  induction bs as [|b bs IH]; intros p m; simpl.
  - reflexivity.
  - rewrite IH. f_equal.
    rewrite load_byte_store_below by (simpl; lia). simpl.
    unfold pointer_eqb. rewrite Nat.eqb_refl, Z.eqb_refl. reflexivity.
Qed.

(** ** [strlen] *)

Lemma strlen_lt (s : list ascii) (n : nat) :
  strlen s = Some n -> (n < length s)%nat.
Proof.
  revert n. induction s as [|c s IH]; intros n H; simpl in *.
  - discriminate.
  - destruct (Ascii.eqb c zero).
    + inversion H. lia.
    + destruct (strlen s) as [k|]; simpl in H; [|discriminate].
      inversion H. specialize (IH k eq_refl). lia.
Qed.

Lemma strlen_prefix (s t : list ascii) :
  (forall c, In c s -> c <> zero) -> strlen (s ++ zero :: t) = Some (length s).
Proof.
  induction s as [|c s IH]; intros H; simpl.
  - reflexivity.
  - destruct (Ascii.eqb c zero) eqn:E.
    + apply Ascii.eqb_eq in E. exfalso. apply (H c); [left; reflexivity|exact E].
    + rewrite IH; [reflexivity|]. intros d Hd. apply H. right. exact Hd.
Qed.


(** ** Populating one record *)

Arguments device_name_buffer : simpl never.
Arguments to_int : simpl never.
Arguments to_size : simpl never.
Arguments iree_hal_cuda_driver_select_default_device : simpl never.
Arguments iree_hal_cuda_device_create : simpl never.
Arguments iree_hal_cuda_populate_device_info : simpl never.

Ltac run :=
  unfold bind, ret, undefined, log_cu, log_host, memcpy,
         iree_string_view_append_to_buffer; cbn.

Lemma device_name_buffer_length env syms device :
  length (device_name_buffer env syms device) = 100%nat.
Proof.
  unfold device_name_buffer. rewrite length_map, length_seq. reflexivity.
Qed.

(** The buffer starts with what the native call stored. *)
Lemma device_name_buffer_written env syms device (w : list ascii) :
  snd (cuDeviceGetName syms IREE_MAX_CUDA_DEVICE_NAME_LENGTH device) = w ->
  (length w <= 100)%nat ->
  exists rest, device_name_buffer env syms device = w ++ rest.
Proof.
  intros Hw Hl. unfold device_name_buffer. cbv zeta. rewrite Hw.
  rewrite firstn_all2 by exact Hl.
  change (Z.to_nat IREE_MAX_CUDA_DEVICE_NAME_LENGTH) with 100%nat.
  assert (E : seq 0 100 = seq 0 (length w + (100 - length w)))
    by (f_equal; lia).
  rewrite E, seq_app, map_app. clear E. eexists. f_equal.
  clear Hw Hl. generalize (indeterminate env device). intros g.
  transitivity (map (fun k => nth k w zero) (seq 0 (length w))).
  - apply map_ext_in. intros k Hk. apply in_seq in Hk.
    destruct (nth_error w k) as [c|] eqn:E.
    + symmetry. apply nth_error_nth. exact E.
    + apply nth_error_None in E. lia.
  - clear g. induction w as [|c w IH]; simpl.
    + reflexivity.
    + f_equal. rewrite <- seq_shift, map_map. exact IH.
Qed.

(** [iree_hal_cuda_populate_device_info], step by step. *)
Lemma populate_device_info_run env device syms p s :
  iree_hal_cuda_populate_device_info env device syms p s =
  match strlen (device_name_buffer env syms device) with
  | None => None
  | Some n =>
      Some ((pointer_add p (Z.of_nat n),
             mk_device_info (to_size device)
                            (mk_string_view (Some p) (Z.of_nat n))),
            mk_state (host_log s) (live s) (next_block s)
                     (cu_log s
                      ++ [CallDeviceGetName IREE_MAX_CUDA_DEVICE_NAME_LENGTH
                                            device])
                     (store_bytes p
                        (firstn n (device_name_buffer env syms device))
                        (mem s)))
  end.
Proof.
  unfold iree_hal_cuda_populate_device_info. run.
  destruct (strlen (device_name_buffer env syms device)) as [n|] eqn:E.
  - pose proof (strlen_lt _ _ E) as Hn. run.
    rewrite firstn_length_le by lia. reflexivity.
  - reflexivity.
Qed.

(** ** The array of records *)

Lemma length_store_info i info a : length (store_info i info a) = length a.
Proof.
  revert i. induction a as [|x a IH]; intros [|i]; simpl; try reflexivity.
  rewrite IH. reflexivity.
Qed.

Lemma nth_error_store_info_same i info a :
  (i < length a)%nat -> nth_error (store_info i info a) i = Some (Some info).
Proof.
  revert i. induction a as [|x a IH]; intros [|i] H; simpl in *; try lia.
  - reflexivity.
  - apply IH. lia.
Qed.

Lemma nth_error_store_info_other i j info a :
  i <> j -> nth_error (store_info i info a) j = nth_error a j.
Proof.
  revert i j. induction a as [|x a IH]; intros [|i] [|j] H; simpl;
    try reflexivity; try congruence.
  apply IH. congruence.
Qed.

Lemma nth_error_store_info_cases i j info a x :
  nth_error (store_info i info a) j = Some (Some x) ->
  x = info \/ nth_error a j = Some (Some x).
Proof.
  intros H. destruct (Nat.eq_dec i j) as [->|Hne].
  - destruct (Nat.lt_ge_cases j (length a)) as [Hlt|Hge].
    + rewrite nth_error_store_info_same in H by exact Hlt.
      left. congruence.
    + assert (nth_error (store_info j info a) j = None) as E
        by (apply nth_error_None; rewrite length_store_info; exact Hge).
      congruence.
  - rewrite nth_error_store_info_other in H by exact Hne. right. exact H.
Qed.

(** ** The filling loop *)

Lemma populate_devices_step env syms n i p a s :
  populate_devices env syms (S n) i p a s =
  if resolves syms i then
    match iree_hal_cuda_populate_device_info
            env (handle_at syms i) syms p (after_call s (CallDeviceGet (to_int i))) with
    | Some ((p1, info), s1) =>
        populate_devices env syms n (to_size (i + 1)) p1
                         (store_info (Z.to_nat i) info a) s1
    | None => None
    end
  else Some ((p, a), after_call s (CallDeviceGet (to_int i))).
Proof.
  unfold resolves, handle_at. cbn [populate_devices]. unfold bind at 1.
  unfold log_cu at 1. fold (after_call s (CallDeviceGet (to_int i))).
  destruct (cuDeviceGet syms (to_int i)) as [r d]. cbn [fst snd].
  destruct (iree_status_is_ok (CU_RESULT_TO_STATUS r "cuDeviceGet")).
  - cbn [negb]. unfold bind at 1.
    destruct (iree_hal_cuda_populate_device_info env d syms p (after_call s (CallDeviceGet (to_int i))))
      as [[[p1 info] s1]|]; reflexivity.
  - reflexivity.
Qed.

(** The loop leaves the allocator alone, keeps the array's length and moves
    the packing cursor forward inside its block, by at most 99 bytes per
    iteration. *)
Lemma populate_devices_frame env syms n :
  forall i p a s p' a' s',
    populate_devices env syms n i p a s = Some ((p', a'), s') ->
    host_log s' = host_log s /\ live s' = live s
    /\ next_block s' = next_block s /\ length a' = length a
    /\ blk p' = blk p
    /\ off p <= off p' <= off p + 99 * Z.of_nat n.
Proof.
  induction n as [|n IH]; intros i p a s p' a' s' H.
  - cbn in H. inversion H; subst. repeat split; lia.
  - rewrite populate_devices_step in H.
    destruct (resolves syms i).
    + rewrite populate_device_info_run in H.
      destruct (strlen (device_name_buffer env syms (handle_at syms i)))
        as [k|] eqn:E; [|discriminate].
      apply strlen_lt in E. rewrite device_name_buffer_length in E.
      apply IH in H. cbn [host_log live next_block blk off pointer_add] in H. rewrite length_store_info in H.
      destruct H as (H1 & H2 & H3 & H4 & H5 & H6).
      repeat split; try assumption; lia.
    + inversion H; subst. cbn [after_call host_log live next_block]. repeat split; lia.
Qed.

(** Every record the loop leaves in the array either was there before or
    has its name inside the stretch of the block the cursor travelled. *)
Lemma populate_devices_views env syms n :
  forall i p a s p' a' s',
    populate_devices env syms n i p a s = Some ((p', a'), s') ->
    forall j x, nth_error a' j = Some (Some x) ->
      nth_error a j = Some (Some x)
      \/ exists q, data (name x) = Some q /\ blk q = blk p
                   /\ off p <= off q /\ 0 <= size (name x) <= 99
                   /\ off q + size (name x) <= off p'.
Proof.
  induction n as [|n IH]; intros i p a s p' a' s' H j x Hx.
  - cbn in H. inversion H; subst. left. exact Hx.
  - rewrite populate_devices_step in H.
    destruct (resolves syms i).
    + rewrite populate_device_info_run in H.
      destruct (strlen (device_name_buffer env syms (handle_at syms i)))
        as [k|] eqn:E; [|discriminate].
      apply strlen_lt in E. rewrite device_name_buffer_length in E.
      pose proof (populate_devices_frame _ _ _ _ _ _ _ _ _ _ H) as F.
      cbn [host_log live next_block blk off pointer_add] in F. destruct F as (_ & _ & _ & _ & _ & F).
      destruct (IH _ _ _ _ _ _ _ H j x Hx) as [Hold|(q & Hq & Hb & Ho & Hs & He)].
      * apply nth_error_store_info_cases in Hold.
        destruct Hold as [->|Hold]; [|left; exact Hold].
        right. exists p. cbn [data size name blk off pointer_add]. repeat split; lia.
      * right. exists q. cbn [blk off pointer_add] in Hb, Ho. repeat split; try assumption; lia.
    + inversion H; subst. left. exact Hx.
Qed.

(** With a terminator in every local name array the loop returns. *)
Lemma populate_devices_returns env syms n :
  terminated env syms ->
  forall i p a s, exists r, populate_devices env syms n i p a s = Some r.
Proof.
  intros T. induction n as [|n IH]; intros i p a s.
  - eexists. reflexivity.
  - rewrite populate_devices_step. destruct (resolves syms i).
    + rewrite populate_device_info_run.
      destruct (strlen (device_name_buffer env syms (handle_at syms i)))
        as [k|] eqn:E.
      * apply IH.
      * exfalso. exact (T _ E).
    + eexists. reflexivity.
Qed.

(** Records below the loop counter are not written again. *)
Lemma populate_devices_before env syms n :
  forall i p a s p' a' s',
    0 <= i -> i + Z.of_nat n < 2 ^ 64 ->
    populate_devices env syms n i p a s = Some ((p', a'), s') ->
    forall j, Z.of_nat j < i -> nth_error a' j = nth_error a j.
Proof.
  induction n as [|n IH]; intros i p a s p' a' s' Hi Hn H j Hj.
  - cbn in H. inversion H; subst. reflexivity.
  - rewrite populate_devices_step in H.
    destruct (resolves syms i).
    + destruct (iree_hal_cuda_populate_device_info
                  env (handle_at syms i) syms p (after_call s (CallDeviceGet (to_int i))))
        as [[[p1 info] s1]|]; [|discriminate].
      rewrite to_size_small in H by lia.
      rewrite (IH (i + 1) _ _ _ _ _ _ ltac:(lia) ltac:(lia) H j ltac:(lia)).
      apply nth_error_store_info_other. lia.
    + inversion H; subst. reflexivity.
Qed.

(** Once [cuDeviceGet] fails at counter [f], no record from [f] on is
    written. *)
Lemma populate_devices_after_failure env syms n :
  forall i p a s p' a' s',
    0 <= i -> i + Z.of_nat n < 2 ^ 64 ->
    populate_devices env syms n i p a s = Some ((p', a'), s') ->
    forall f, i <= f < i + Z.of_nat n -> resolves syms f = false ->
    forall j, f <= Z.of_nat j -> nth_error a' j = nth_error a j.
Proof.
  induction n as [|n IH]; intros i p a s p' a' s' Hi Hn H f Hf Hr j Hj.
  - cbn in H. inversion H; subst. reflexivity.
  - rewrite populate_devices_step in H.
    destruct (resolves syms i) eqn:Ri.
    + assert (f <> i) by congruence.
      destruct (iree_hal_cuda_populate_device_info
                  env (handle_at syms i) syms p (after_call s (CallDeviceGet (to_int i))))
        as [[[p1 info] s1]|]; [|discriminate].
      rewrite to_size_small in H by lia.
      rewrite (IH (i + 1) _ _ _ _ _ _ ltac:(lia) ltac:(lia) H f ltac:(lia) Hr j Hj).
      apply nth_error_store_info_other. lia.
    + inversion H; subst. reflexivity.
Qed.

(** A record whose counter and all counters before it resolve is written,
    with the id taken from the native handle. *)
Lemma populate_devices_populated env syms n :
  forall i p a s p' a' s',
    0 <= i -> i + Z.of_nat n < 2 ^ 64 ->
    populate_devices env syms n i p a s = Some ((p', a'), s') ->
    forall j, i <= Z.of_nat j < i + Z.of_nat n ->
    (forall f, i <= f <= Z.of_nat j -> resolves syms f = true) ->
    (j < length a)%nat ->
    exists x, nth_error a' j = Some (Some x)
              /\ device_id x = to_size (handle_at syms (Z.of_nat j)).
Proof.
  induction n as [|n IH]; intros i p a s p' a' s' Hi Hn H j Hj Hr Hl.
  - lia.
  - rewrite populate_devices_step in H.
    rewrite (Hr i ltac:(lia)) in H.
    rewrite populate_device_info_run in H.
    destruct (strlen (device_name_buffer env syms (handle_at syms i)))
      as [k|]; [|discriminate].
    rewrite to_size_small in H by lia.
    destruct (Z.eq_dec (Z.of_nat j) i) as [<-|Hne].
    + rewrite (populate_devices_before _ _ n (Z.of_nat j + 1) _ _ _ _ _ _
                 ltac:(lia) ltac:(lia) H j ltac:(lia)).
      rewrite Nat2Z.id. rewrite nth_error_store_info_same by exact Hl.
      eexists. split; reflexivity.
    + apply (IH (i + 1) _ _ _ _ _ _ ltac:(lia) ltac:(lia) H j ltac:(lia)).
      * intros f Hf. apply Hr. lia.
      * rewrite length_store_info. exact Hl.
Qed.

(** ** The enumeration as a whole *)

(** The count query failed: its status is returned at once. *)
Lemma query_count_failed env driver alloc t r N s :
  syms driver = Some t -> cuDeviceGetCount t = (r, N) ->
  r <> CUDA_SUCCESS ->
  iree_hal_cuda_driver_query_available_devices env driver alloc s
  = Some (mk_query_result (CU_RESULT_TO_STATUS r "cuDeviceGetCount") None None,
          after_call s CallDeviceGetCount).
Proof.
  intros Ht Hc Hr.
  unfold iree_hal_cuda_driver_query_available_devices, driver_syms.
  rewrite Ht. run. rewrite Hc. unfold CU_RESULT_TO_STATUS.
  apply Z.eqb_neq in Hr. rewrite Hr. reflexivity.
Qed.

(** The allocator refused the block: its status is returned, after the
    call to free. *)
Lemma query_alloc_failed env driver alloc t N s :
  syms driver = Some t -> cuDeviceGetCount t = (CUDA_SUCCESS, N) ->
  iree_status_is_ok (alloc_status alloc (query_total_size env N)) = false ->
  iree_hal_cuda_driver_query_available_devices env driver alloc s
  = Some (mk_query_result (alloc_status alloc (query_total_size env N))
                          None None,
          mk_state (host_log s ++ [EvMalloc (query_total_size env N) None]
                    ++ [EvFree None])
                   (live s) (next_block s)
                   (cu_log s ++ [CallDeviceGetCount]) (mem s)).
Proof.
  intros Ht Hc Ha.
  unfold iree_hal_cuda_driver_query_available_devices, driver_syms.
  rewrite Ht. run. rewrite Hc. cbn.
  unfold iree_allocator_malloc, iree_allocator_free. cbn.
  fold (query_total_size env N). rewrite Ha. cbn. rewrite Ha. cbn.
  rewrite <- app_assoc. reflexivity.
Qed.

(** The allocator granted the block: the loop runs on it and the outcome is
    the ok status with the count the native query stored. *)
Lemma query_alloc_granted env driver alloc t N s :
  syms driver = Some t -> cuDeviceGetCount t = (CUDA_SUCCESS, N) ->
  iree_status_is_ok (alloc_status alloc (query_total_size env N)) = true ->
  iree_hal_cuda_driver_query_available_devices env driver alloc s
  = match populate_devices env t (Z.to_nat (to_size N)) 0
            (mk_pointer (next_block s)
                        (to_size (to_size N * sizeof_device_info env)))
            (repeat None (Z.to_nat (to_size N)))
            (after_malloc s (query_total_size env N)) with
    | Some ((_, a), s') =>
        Some (mk_query_result iree_ok_status (Some (next_block s, a))
                              (Some (to_size N)), s')
    | None => None
    end.
Proof.
  intros Ht Hc Ha.
  unfold iree_hal_cuda_driver_query_available_devices, driver_syms.
  rewrite Ht. run. rewrite Hc. cbn.
  unfold iree_allocator_malloc. cbn.
  fold (query_total_size env N). rewrite Ha. cbn.
  fold (after_malloc s (query_total_size env N)).
  destruct (populate_devices env t (Z.to_nat (to_size N)) 0
              (mk_pointer (next_block s)
                          (to_size (to_size N * sizeof_device_info env)))
              (repeat None (Z.to_nat (to_size N)))
              (after_malloc s (query_total_size env N)))
    as [[[p' a'] s']|]; reflexivity.
Qed.

(** ** The simulated backend *)

Lemma strlen_In (s : list ascii) : In zero s -> strlen s <> None.
Proof.
  induction s as [|c s IH]; intros H; simpl.
  - destruct H.
  - destruct (Ascii.eqb c zero) eqn:E; [discriminate|].
    destruct H as [->|H].
    + rewrite Ascii.eqb_refl in E. discriminate.
    + specialize (IH H). destruct (strlen s); [discriminate|congruence].
Qed.

(** On a zeroed stack the simulated backend always leaves a terminator in
    the local name array. *)
Lemma simulated_terminated names broken nameless :
  let t := simulated_cuda names broken nameless in
  terminated (simulated_env t) t.
Proof.
  intros t device.
  assert (Hcases :
            (exists nm, snd (cuDeviceGetName t IREE_MAX_CUDA_DEVICE_NAME_LENGTH
                                             device)
                        = native_device_name nm
                            IREE_MAX_CUDA_DEVICE_NAME_LENGTH)
            \/ snd (cuDeviceGetName t IREE_MAX_CUDA_DEVICE_NAME_LENGTH device)
               = []).
  { unfold t, simulated_cuda. cbn [cuDeviceGetName].
    destruct (nth_error names (Z.to_nat device)) as [nm|]; [|right; reflexivity].
    destruct ((0 <=? device) && negb (nameless device));
      [left; eexists; reflexivity|right; reflexivity]. }
  destruct Hcases as [[nm Hw]|Hw].
  - destruct (device_name_buffer_written (simulated_env t) t device _ Hw)
      as [rest Hb].
    { unfold native_device_name. rewrite length_app, length_firstn.
      change (Z.to_nat (IREE_MAX_CUDA_DEVICE_NAME_LENGTH - 1)) with 99%nat.
      cbn [length]. lia. }
    rewrite Hb. apply strlen_In. unfold native_device_name.
    apply in_or_app. left. apply in_or_app. right. left. reflexivity.
  - unfold device_name_buffer. cbv zeta. rewrite Hw. discriminate.
Qed.

(** ** Enumeration stopped by a failing handle query *)

(** Whenever the enumeration returns the ok status, the count it stores is
    the one the native count query stored, whatever the loop did. *)
Lemma query_success_count env driver alloc t N s r s' :
  syms driver = Some t -> cuDeviceGetCount t = (CUDA_SUCCESS, N) ->
  iree_hal_cuda_driver_query_available_devices env driver alloc s
  = Some (r, s') ->
  iree_status_is_ok (query_status r) = true ->
  out_device_info_count r = Some (to_size N).
Proof.
  intros Ht Hc H Hok.
  destruct (iree_status_is_ok (alloc_status alloc (query_total_size env N)))
    eqn:Ha.
  - rewrite (query_alloc_granted _ _ _ _ _ _ Ht Hc Ha) in H.
    destruct (populate_devices _ _ _ _ _ _ _) as [[[p' a'] s1]|];
      [|discriminate].
    inversion H; subst. reflexivity.
  - rewrite (query_alloc_failed _ _ _ _ _ _ Ht Hc Ha) in H.
    inversion H; subst. cbn in Hok. congruence.
Qed.

(** C1: for every count [N] and every index [f < N] at which the handle
    query fails, enumeration stops filling the array there, so that no
    record from [f] on is written; but the count it reports with the ok
    status is not the populated prefix: it is the full [N]. *)
Theorem query_reports_full_count_after_failed_handle_query
        env driver alloc t N s f :
  syms driver = Some t -> cuDeviceGetCount t = (CUDA_SUCCESS, N) ->
  0 <= N < 2 ^ 31 ->
  iree_status_is_ok (alloc_status alloc (query_total_size env N)) = true ->
  terminated env t ->
  0 <= f < N -> resolves t f = false ->
  exists a s',
    iree_hal_cuda_driver_query_available_devices env driver alloc s
    = Some (mk_query_result iree_ok_status (Some (next_block s, a)) (Some N),
            s')
    /\ forall j, f <= Z.of_nat j < N -> nth_error a j = Some None.
Proof.
  intros Ht Hc HN Ha T Hf Hr.
  rewrite (query_alloc_granted _ _ _ _ _ _ Ht Hc Ha).
  assert (HN64 : 0 <= N < 2 ^ 64).
  { change (2 ^ 31) with 2147483648 in HN.
    change (2 ^ 64) with 18446744073709551616. lia. }
  rewrite (to_size_small N) by exact HN64.
  destruct (populate_devices_returns env t (Z.to_nat N) T 0
              (mk_pointer (next_block s)
                          (to_size (N * sizeof_device_info env)))
              (repeat None (Z.to_nat N))
              (after_malloc s (query_total_size env N)))
    as [[[p' a'] s'] E].
  rewrite E. exists a', s'. split; [reflexivity|].
  intros j Hj.
  assert (Hb : 0 + Z.of_nat (Z.to_nat N) < 2 ^ 64)
    by (rewrite Z2Nat.id by lia; lia).
  assert (Hf' : 0 <= f < 0 + Z.of_nat (Z.to_nat N))
    by (rewrite Z2Nat.id by lia; lia).
  rewrite (populate_devices_after_failure _ _ _ _ _ _ _ _ _ _
             (Z.le_refl 0) Hb E f Hf' Hr j (proj1 Hj)).
  apply nth_error_repeat. lia.
Qed.

Lemma query_reports_full_count_after_failed_handle_query_witness :
  let t := simulated_cuda ["A100"; "V100"]%string (fun o => o =? 1) nowhere in
  exists a s',
    iree_hal_cuda_driver_query_available_devices
      (simulated_env t) (simulated_driver t 0) generous heap_with_driver
    = Some (mk_query_result iree_ok_status (Some (1%nat, a)) (Some 2), s')
    /\ forall j, 1 <= Z.of_nat j < 2 -> nth_error a j = Some None.
Proof.
  intros t.
  assert (HN : 0 <= 2 < 2 ^ 31) by (cbv; split; [discriminate|reflexivity]).
  assert (Hf : 0 <= 1 < 2) by (cbv; split; [discriminate|reflexivity]).
  exact (query_reports_full_count_after_failed_handle_query
           (simulated_env t) (simulated_driver t 0) generous t 2
           heap_with_driver 1 eq_refl eq_refl HN eq_refl
           (simulated_terminated _ _ _) Hf eq_refl).
Defined.

(** With two devices counted and the handle query failing at index 1, the
    ok status is returned with count 2 while only record 0 was written. *)
Example query_two_devices_second_unresolved :
  let t := simulated_cuda ["A100"; "V100"]%string (fun o => o =? 1) nowhere in
  option_map fst
    (iree_hal_cuda_driver_query_available_devices
       (simulated_env t) (simulated_driver t 0) generous heap_with_driver)
  = Some (mk_query_result
            iree_ok_status
            (Some (1%nat,
                   [Some (mk_device_info
                            0 (mk_string_view (Some (mk_pointer 1 48)) 4));
                    None]))
            (Some 2)).
Proof. vm_compute. reflexivity. Qed.

(** ** Default device selection *)

(** [iree_hal_cuda_driver_select_default_device] once the count query has
    stored [N]. *)
Lemma select_default_device_run t d alloc N s :
  cuDeviceGetCount t = (CUDA_SUCCESS, N) ->
  iree_hal_cuda_driver_select_default_device t d alloc s =
  if (N =? 0) || (d >=? N) then
    Some ((default_device_not_found d N, None), after_call s CallDeviceGetCount)
  else
    let s1 := after_call (after_call s CallDeviceGetCount) (CallDeviceGet d) in
    let resolved := CU_RESULT_TO_STATUS (fst (cuDeviceGet t d)) "cuDeviceGet" in
    if iree_status_is_ok resolved
    then Some ((iree_ok_status, Some (snd (cuDeviceGet t d))), s1)
    else Some ((resolved, None), s1).
Proof.
  intros Hc. unfold iree_hal_cuda_driver_select_default_device. run.
  rewrite Hc. cbn.
  destruct ((N =? 0) || (d >=? N)); [reflexivity|].
  cbn. destruct (cuDeviceGet t d) as [r dev]. cbn [fst snd].
  destruct (iree_status_is_ok (CU_RESULT_TO_STATUS r "cuDeviceGet"));
    reflexivity.
Qed.

(** [iree_hal_cuda_driver_create_device] once [cuInit] has succeeded: the
    branch at cuda_driver.c:188 is taken on the handle the id converts to. *)
Lemma create_device_run env driver id alloc t s :
  syms driver = Some t -> cuInit t 0 = CUDA_SUCCESS ->
  iree_hal_cuda_driver_create_device env driver id alloc s =
  if to_int id =? 0 then
    bind (iree_hal_cuda_driver_select_default_device
            t (default_device_index driver) alloc)
         (create_on env) (after_call s (CallInit 0))
  else
    iree_hal_cuda_device_create env "cuda" (to_int id)
                                (after_call s (CallInit 0)).
Proof.
  intros Ht Hi. unfold iree_hal_cuda_driver_create_device, driver_syms.
  rewrite Ht. run. rewrite Hi. cbn. fold (after_call s (CallInit 0)).
  destruct (to_int id =? 0).
  - unfold create_on.
    destruct (iree_hal_cuda_driver_select_default_device
                t (default_device_index driver) alloc
                (after_call s (CallInit 0))) as [[[st ch] s1]|]; reflexivity.
  - reflexivity.
Qed.

(** A failing [cuInit] ends device creation before any device is chosen. *)
Lemma create_device_init_failed env driver id alloc t s :
  syms driver = Some t -> cuInit t 0 <> CUDA_SUCCESS ->
  iree_hal_cuda_driver_create_device env driver id alloc s =
  Some ((CU_RESULT_TO_STATUS (cuInit t 0) "cuInit", None),
        after_call s (CallInit 0)).
Proof.
  intros Ht Hi. unfold iree_hal_cuda_driver_create_device, driver_syms.
  rewrite Ht. run. unfold CU_RESULT_TO_STATUS.
  apply Z.eqb_neq in Hi. rewrite Hi. reflexivity.
Qed.

(** With two devices enumerated and the default index -1, creating a device
    with the unspecified id hands -1 to the native handle query, whose
    failure is what the caller gets. *)
Example default_index_below_zero_not_reported_not_found :
  let t := simulated_cuda ["A100"; "V100"]%string nowhere nowhere in
  option_map (fun r => (fst r, cu_log (snd r)))
    (iree_hal_cuda_driver_create_device
       (simulated_env t) (simulated_driver t (-1)) IREE_HAL_DEVICE_ID_INVALID
       generous heap_with_driver)
  = Some ((iree_make_status IREE_STATUS_INTERNAL "cuDeviceGet"
                            [CUDA_ERROR_INVALID_DEVICE], None),
          [CallInit 0; CallDeviceGetCount; CallDeviceGet (-1)])
  /\ iree_make_status IREE_STATUS_INTERNAL "cuDeviceGet"
                      [CUDA_ERROR_INVALID_DEVICE]
     <> default_device_not_found (-1) 2.
Proof. split; [vm_compute; reflexivity | discriminate]. Qed.

(** The range check of default device selection, seen from device creation:
    once the backend is initialised and the count query has stored [N], the
    unspecified id fails with the not-found status naming the default index
    [d] and [N] whenever [N] is zero or [d >= N]; for [0 <= d < N] the
    native handle at index [d] is queried, the device is created on it when
    the query succeeds and the query's failure is returned otherwise. *)
Lemma create_device_default_selection env driver alloc t N s :
  syms driver = Some t -> cuInit t 0 = CUDA_SUCCESS ->
  cuDeviceGetCount t = (CUDA_SUCCESS, N) ->
  let d := default_device_index driver in
  let s0 := after_call (after_call s (CallInit 0)) CallDeviceGetCount in
  (N = 0 \/ d >= N ->
   iree_hal_cuda_driver_create_device
     env driver IREE_HAL_DEVICE_ID_INVALID alloc s
   = Some ((default_device_not_found d N, None), s0))
  /\ (0 <= d < N ->
      iree_hal_cuda_driver_create_device
        env driver IREE_HAL_DEVICE_ID_INVALID alloc s
      = if fst (cuDeviceGet t d) =? CUDA_SUCCESS
        then iree_hal_cuda_device_create
               env "cuda" (snd (cuDeviceGet t d))
               (after_call s0 (CallDeviceGet d))
        else Some ((CU_RESULT_TO_STATUS (fst (cuDeviceGet t d)) "cuDeviceGet",
                    None),
                   after_call s0 (CallDeviceGet d))).
Proof.
  intros Ht Hi Hc d s0.
  rewrite (create_device_run _ _ _ _ _ _ Ht Hi).
  change (to_int IREE_HAL_DEVICE_ID_INVALID =? 0) with true. cbv iota.
  unfold bind. rewrite (select_default_device_run _ _ _ _ _ Hc).
  fold d. split.
  - intros Hout.
    assert ((N =? 0) || (d >=? N) = true) as ->.
    { apply orb_true_iff. destruct Hout as [->|Hge].
      - left. reflexivity.
      - right. apply Z.geb_le. lia. }
    reflexivity.
  - intros Hin.
    assert ((N =? 0) || (d >=? N) = false) as ->.
    { apply orb_false_iff. split.
      - apply Z.eqb_neq. lia.
      - rewrite Z.geb_leb. apply Z.leb_gt. lia. }
    cbv zeta. fold s0. unfold CU_RESULT_TO_STATUS.
    destruct (fst (cuDeviceGet t d) =? CUDA_SUCCESS); reflexivity.
Qed.

Lemma create_device_default_selection_witness :
  let t := simulated_cuda ["A100"; "V100"]%string nowhere nowhere in
  iree_hal_cuda_driver_create_device
    (simulated_env t) (simulated_driver t 5) IREE_HAL_DEVICE_ID_INVALID
    generous heap_with_driver
  = Some ((default_device_not_found 5 2, None),
          after_call (after_call heap_with_driver (CallInit 0))
                     CallDeviceGetCount)
  /\ iree_hal_cuda_driver_create_device
       (simulated_env t) (simulated_driver t 1) IREE_HAL_DEVICE_ID_INVALID
       generous heap_with_driver
     = iree_hal_cuda_device_create
         (simulated_env t) "cuda" 1
         (after_call (after_call (after_call heap_with_driver (CallInit 0))
                                 CallDeviceGetCount)
                     (CallDeviceGet 1)).
Proof.
  intros t. split.
  - apply (proj1 (create_device_default_selection
                    (simulated_env t) (simulated_driver t 5) generous t 2
                    heap_with_driver eq_refl eq_refl eq_refl)).
    right. simpl. lia.
  - apply (proj2 (create_device_default_selection
                    (simulated_env t) (simulated_driver t 1) generous t 2
                    heap_with_driver eq_refl eq_refl eq_refl)).
    simpl. lia.
Defined.

(** C2: a default index that is out of range must fail with the not-found
    status naming the index and the count, and the code does so for an
    index at or above the count, but not for one below zero: with [N > 0]
    devices enumerated and a default index [d < 0], the range check at
    cuda_driver.c:164 lets [d] through, the native handle query is called
    with [d], and what the caller gets is the outcome of that query, a
    status that is never the not-found status naming [d] and [N]. *)
Theorem create_device_default_index_below_zero env driver alloc t N s :
  syms driver = Some t -> cuInit t 0 = CUDA_SUCCESS ->
  cuDeviceGetCount t = (CUDA_SUCCESS, N) ->
  let d := default_device_index driver in
  let s0 := after_call (after_call (after_call s (CallInit 0))
                                   CallDeviceGetCount)
                       (CallDeviceGet d) in
  d < 0 -> 0 < N ->
  iree_hal_cuda_driver_create_device
    env driver IREE_HAL_DEVICE_ID_INVALID alloc s
  = (if fst (cuDeviceGet t d) =? CUDA_SUCCESS
     then iree_hal_cuda_device_create env "cuda" (snd (cuDeviceGet t d)) s0
     else Some ((CU_RESULT_TO_STATUS (fst (cuDeviceGet t d)) "cuDeviceGet",
                 None), s0))
  /\ CU_RESULT_TO_STATUS (fst (cuDeviceGet t d)) "cuDeviceGet"
     <> default_device_not_found d N.
Proof.
  intros Ht Hi Hc d s0 Hd HN. split.
  - rewrite (create_device_run _ _ _ _ _ _ Ht Hi).
    change (to_int IREE_HAL_DEVICE_ID_INVALID =? 0) with true. cbv iota.
    unfold bind. rewrite (select_default_device_run _ _ _ _ _ Hc).
    fold d.
    assert ((N =? 0) || (d >=? N) = false) as ->.
    { apply orb_false_iff. split.
      - apply Z.eqb_neq. lia.
      - rewrite Z.geb_leb. apply Z.leb_gt. lia. }
    cbv zeta. fold s0. unfold CU_RESULT_TO_STATUS.
    destruct (fst (cuDeviceGet t d) =? CUDA_SUCCESS); reflexivity.
  - unfold CU_RESULT_TO_STATUS, default_device_not_found.
    destruct (fst (cuDeviceGet t d) =? CUDA_SUCCESS); discriminate.
Qed.

Lemma create_device_default_index_below_zero_witness :
  let t := simulated_cuda ["A100"; "V100"]%string nowhere nowhere in
  iree_hal_cuda_driver_create_device
    (simulated_env t) (simulated_driver t (-1)) IREE_HAL_DEVICE_ID_INVALID
    generous heap_with_driver
  = Some ((iree_make_status IREE_STATUS_INTERNAL "cuDeviceGet"
                            [CUDA_ERROR_INVALID_DEVICE], None),
          after_call (after_call (after_call heap_with_driver (CallInit 0))
                                 CallDeviceGetCount)
                     (CallDeviceGet (-1))).
Proof.
  intros t.
  apply (proj1 (create_device_default_index_below_zero
                  (simulated_env t) (simulated_driver t (-1)) generous t 2
                  heap_with_driver eq_refl eq_refl eq_refl eq_refl eq_refl)).
Defined.

(** ** Device names *)





(** ** A backend without devices *)

Lemma query_total_size_zero env : query_total_size env 0 = 0.
Proof. reflexivity. Qed.

(** C4, as stated, fails: with the count query succeeding and storing 0,
    the enumeration still asks the caller's allocator for a block, of zero
    bytes, and an allocator that refuses such a request makes the
    enumeration return that refusal instead of success. *)
Lemma zero_devices_refused_by_allocator :
  let t := simulated_cuda [] nowhere nowhere in
  cuDeviceGetCount t = (CUDA_SUCCESS, 0)
  /\ option_map (fun r => (fst r, host_log (snd r)))
       (iree_hal_cuda_driver_query_available_devices
          (simulated_env t) (simulated_driver t 0) strict initial_state)
     = Some (mk_query_result
               (iree_make_status IREE_STATUS_INVALID_ARGUMENT
                                 "allocations must be >0 bytes" [])
               None None,
             [EvMalloc 0 None; EvFree None]).
Proof. split; vm_compute; reflexivity. Qed.

(** C4 (amended): when the count query succeeds and stores 0, the
    enumeration requests a block of zero bytes from the caller's allocator;
    if the request is granted it returns the ok status with count 0 and an
    empty array, without calling the handle or name queries; if it is
    refused it returns the allocator's status after the call to free. *)
Theorem query_zero_devices env driver alloc t s :
  syms driver = Some t -> cuDeviceGetCount t = (CUDA_SUCCESS, 0) ->
  (iree_status_is_ok (alloc_status alloc 0) = true ->
   iree_hal_cuda_driver_query_available_devices env driver alloc s
   = Some (mk_query_result iree_ok_status (Some (next_block s, [])) (Some 0),
           after_malloc s 0))
  /\ (iree_status_is_ok (alloc_status alloc 0) = false ->
      iree_hal_cuda_driver_query_available_devices env driver alloc s
      = Some (mk_query_result (alloc_status alloc 0) None None,
              mk_state (host_log s ++ [EvMalloc 0 None] ++ [EvFree None])
                       (live s) (next_block s)
                       (cu_log s ++ [CallDeviceGetCount]) (mem s))).
Proof.
  intros Ht Hc. split; intros Ha.
  - rewrite (query_alloc_granted _ _ _ _ _ _ Ht Hc);
      rewrite query_total_size_zero; [reflexivity|exact Ha].
  - rewrite (query_alloc_failed _ _ _ _ _ _ Ht Hc);
      rewrite query_total_size_zero; [reflexivity|exact Ha].
Qed.

Lemma query_zero_devices_witness :
  let t := simulated_cuda [] nowhere nowhere in
  iree_hal_cuda_driver_query_available_devices
    (simulated_env t) (simulated_driver t 0) generous heap_with_driver
  = Some (mk_query_result iree_ok_status (Some (1%nat, [])) (Some 0),
          after_malloc heap_with_driver 0).
Proof.
  intros t.
  apply (proj1 (query_zero_devices (simulated_env t) (simulated_driver t 0)
                                   generous t heap_with_driver
                                   eq_refl eq_refl)).
  reflexivity.
Defined.

(** ** The single block of the enumeration *)

Lemma nth_error_repeat_None {A} (n j : nat) (x : A) :
  nth_error (repeat None n) j = Some (Some x) -> False.
Proof.
  intros H. apply nth_error_In in H. apply repeat_spec in H. discriminate.
Qed.

(** C5: for every count [N] the native count query stores, the enumeration
    makes exactly one allocation request, of
    [N * sizeof(iree_hal_device_info_t) + N * IREE_MAX_CUDA_DEVICE_NAME_LENGTH]
    bytes; the array it returns is that block, it has [N] records, and the
    name of every populated record lies in the same block behind the [N]
    records and inside the requested size. *)
Theorem query_allocates_one_block env driver alloc t N s :
  0 <= sizeof_device_info env < 2 ^ 32 -> 0 <= N < 2 ^ 31 ->
  syms driver = Some t -> cuDeviceGetCount t = (CUDA_SUCCESS, N) ->
  let header := N * sizeof_device_info env in
  let total := header + N * IREE_MAX_CUDA_DEVICE_NAME_LENGTH in
  (terminated env t ->
   exists r s',
     iree_hal_cuda_driver_query_available_devices env driver alloc s
     = Some (r, s'))
  /\ forall r s',
      iree_hal_cuda_driver_query_available_devices env driver alloc s
      = Some (r, s') ->
      exists b tail,
        host_log s' = host_log s ++ EvMalloc total b :: tail
        /\ (tail = [] \/ tail = [EvFree None])
        /\ forall block a,
            out_device_infos r = Some (block, a) ->
            b = Some block /\ Z.of_nat (length a) = N
            /\ forall j x,
                nth_error a j = Some (Some x) ->
                exists q, data (name x) = Some q /\ blk q = block
                          /\ header <= off q
                          /\ off q + size (name x) <= total.
Proof.
  intros HS HN Ht Hc header total.
  assert (HN64 : 0 <= N < 2 ^ 64).
  { change (2 ^ 31) with 2147483648 in HN.
    change (2 ^ 64) with 18446744073709551616. lia. }
  assert (Htotal : query_total_size env N = total)
    by (apply total_size_exact; assumption).
  assert (Hheader : to_size (to_size N * sizeof_device_info env) = header).
  { rewrite (to_size_small N) by exact HN64. apply to_size_small.
    unfold header. change (2 ^ 32) with 4294967296 in HS.
    change (2 ^ 31) with 2147483648 in HN.
    change (2 ^ 64) with 18446744073709551616. nia. }
  destruct (iree_status_is_ok (alloc_status alloc (query_total_size env N)))
    eqn:Ha.
  - rewrite (query_alloc_granted _ _ _ _ _ _ Ht Hc Ha).
    rewrite Hheader, (to_size_small N) by exact HN64. split.
    + intros T.
      destruct (populate_devices_returns env t (Z.to_nat N) T 0
                  (mk_pointer (next_block s) header)
                  (repeat None (Z.to_nat N))
                  (after_malloc s (query_total_size env N)))
        as [[[p' a'] s1] E].
      rewrite E. eexists. eexists. reflexivity.
    + intros r s' H.
      destruct (populate_devices env t (Z.to_nat N) 0
                  (mk_pointer (next_block s) header)
                  (repeat None (Z.to_nat N))
                  (after_malloc s (query_total_size env N)))
        as [[[p' a'] s1]|] eqn:E; [|discriminate].
      inversion H; subst r s1. clear H.
      pose proof (populate_devices_frame _ _ _ _ _ _ _ _ _ _ E) as F.
      cbn [after_malloc host_log blk off] in F.
      destruct F as (Fl & _ & _ & Flen & Fb & Fo).
      exists (Some (next_block s)), []. rewrite Fl, Htotal.
      split; [reflexivity|]. split; [left; reflexivity|].
      intros block a Hout. cbn [out_device_infos] in Hout.
      inversion Hout; subst block a. clear Hout.
      split; [reflexivity|]. split.
      { rewrite Flen, repeat_length. apply Z2Nat.id. lia. }
      intros j x Hx.
      destruct (populate_devices_views _ _ _ _ _ _ _ _ _ _ E j x Hx)
        as [Hold|(q & Hq & Hqb & Hlo & Hsz & Hhi)].
      * exfalso. exact (nth_error_repeat_None _ _ _ Hold).
      * exists q. cbn [blk off] in Hqb, Hlo.
        rewrite Z2Nat.id in Fo by lia.
        unfold total, IREE_MAX_CUDA_DEVICE_NAME_LENGTH.
        repeat split; try assumption; lia.
  - rewrite (query_alloc_failed _ _ _ _ _ _ Ht Hc Ha). split.
    + intros _. eexists. eexists. reflexivity.
    + intros r s' H. inversion H; subst r s'. clear H.
      exists None, [EvFree None]. cbn [host_log out_device_infos].
      rewrite Htotal. split; [reflexivity|]. split; [right; reflexivity|].
      intros block a Hout. discriminate.
Qed.

Lemma query_allocates_one_block_witness :
  let t := simulated_cuda ["A100"; "V100"]%string nowhere nowhere in
  (exists r s',
      iree_hal_cuda_driver_query_available_devices
        (simulated_env t) (simulated_driver t 0) generous heap_with_driver
      = Some (r, s'))
  /\ forall r s',
      iree_hal_cuda_driver_query_available_devices
        (simulated_env t) (simulated_driver t 0) generous heap_with_driver
      = Some (r, s') ->
      exists b tail,
        host_log s' = host_log heap_with_driver ++ EvMalloc 248 b :: tail.
Proof.
  intros t.
  assert (HS : 0 <= sizeof_device_info (simulated_env t) < 2 ^ 32)
    by (cbv; split; [discriminate|reflexivity]).
  assert (HN : 0 <= 2 < 2 ^ 31) by (cbv; split; [discriminate|reflexivity]).
  pose proof (query_allocates_one_block
                (simulated_env t) (simulated_driver t 0) generous t 2
                heap_with_driver HS HN eq_refl eq_refl) as [W1 W2].
  split.
  - apply W1. apply simulated_terminated.
  - intros r s' H. destruct (W2 r s' H) as (b & tail & Hlog & _).
    exists b, tail. exact Hlog.
Defined.

(** ** Driver construction *)

Lemma remove_block_fresh (b : nat) (l : list (nat * Z)) :
  (forall b' sz, In (b', sz) l -> (b' < b)%nat) -> remove_block b l = l.
Proof.
  induction l as [|[b' sz] l IH]; intros H; simpl.
  - reflexivity.
  - assert ((b' =? b)%nat = false) as ->
      by (apply Nat.eqb_neq; specialize (H b' sz (or_introl eq_refl)); lia).
    simpl. f_equal. apply IH. intros b2 sz2 Hin. apply (H b2 sz2).
    right. exact Hin.
Qed.

(** The allocator refused the driver block. *)
Lemma create_alloc_failed env ident options alloc s :
  let total := to_size (sizeof_driver env + Z.of_nat (length ident)) in
  iree_status_is_ok (alloc_status alloc total) = false ->
  iree_hal_cuda_driver_create env ident options alloc s
  = Some ((alloc_status alloc total, None),
          mk_state (host_log s ++ [EvMalloc total None]) (live s)
                   (next_block s) (cu_log s) (mem s)).
Proof.
  intros total Ha.
  unfold iree_hal_cuda_driver_create, iree_hal_cuda_driver_create_internal.
  fold total. unfold bind at 1. unfold iree_allocator_malloc.
  rewrite Ha. cbn. rewrite Ha. reflexivity.
Qed.

(** The driver block was granted and the symbols loaded. *)
Lemma create_loaded env ident options alloc s :
  let total := to_size (sizeof_driver env + Z.of_nat (length ident)) in
  iree_status_is_ok (alloc_status alloc total) = true ->
  iree_status_is_ok (library_status env) = true ->
  iree_hal_cuda_driver_create env ident options alloc s
  = Some ((iree_ok_status,
           Some (mk_driver
                   (next_block s)
                   (iree_hal_resource_initialize iree_hal_cuda_driver_vtable)
                   alloc
                   (mk_string_view
                      (Some (mk_pointer (next_block s)
                                        (total - Z.of_nat (length ident))))
                      (Z.of_nat (length ident)))
                   (opt_default_device_index options)
                   (Some (library_symbols env)))),
          after_identifier env ident s [EvLoadSymbols true]
                           ((next_block s, total) :: live s)).
Proof.
  intros total Ha Hl.
  unfold iree_hal_cuda_driver_create, iree_hal_cuda_driver_create_internal,
    after_identifier.
  fold total. unfold bind at 1. unfold iree_allocator_malloc.
  rewrite Ha. cbn. unfold load_symbols. rewrite Hl. run.
  rewrite <- app_assoc. reflexivity.
Qed.

(** The driver block was granted and loading the symbols failed. *)
Lemma create_load_failed env ident options alloc s :
  let total := to_size (sizeof_driver env + Z.of_nat (length ident)) in
  iree_status_is_ok (alloc_status alloc total) = true ->
  iree_status_is_ok (library_status env) = false ->
  iree_hal_cuda_driver_create env ident options alloc s
  = Some ((library_status env, None),
          after_identifier env ident s
            [EvLoadSymbols false; EvUnloadSymbols false;
             EvFree (Some (next_block s))]
            (remove_block (next_block s) ((next_block s, total) :: live s))).
Proof.
  intros total Ha Hl.
  unfold iree_hal_cuda_driver_create, iree_hal_cuda_driver_create_internal,
    after_identifier.
  fold total. unfold bind at 1. unfold iree_allocator_malloc.
  rewrite Ha. cbn. unfold load_symbols. rewrite Hl. run.
  rewrite Hl. cbn.
  unfold iree_hal_driver_release, iree_hal_cuda_driver_destroy,
    unload_symbols, iree_allocator_free. run.
  rewrite <- !app_assoc. reflexivity.
Qed.

(** C6: whatever the identifier and the options, if loading the symbol
    table fails during driver creation, the driver under construction is
    released: symbols are unloaded, on a table that never loaded, and then
    the one block is freed; the load failure is the status returned, no
    driver is stored for the caller and the outstanding allocations are
    those from before the call. *)
Theorem create_releases_driver_when_load_fails env ident options alloc s :
  let total := to_size (sizeof_driver env + Z.of_nat (length ident)) in
  iree_status_is_ok (alloc_status alloc total) = true ->
  iree_status_is_ok (library_status env) = false ->
  heap_wf s ->
  exists s',
    iree_hal_cuda_driver_create env ident options alloc s
    = Some ((library_status env, None), s')
    /\ host_log s'
       = host_log s ++ [EvMalloc total (Some (next_block s));
                        EvLoadSymbols false; EvUnloadSymbols false;
                        EvFree (Some (next_block s))]
    /\ live s' = live s.
Proof.
  intros total Ha Hl Hwf.
  rewrite (create_load_failed env ident options alloc s Ha Hl).
  eexists. split; [reflexivity|]. split; [reflexivity|].
  unfold after_identifier. cbn [live]. unfold remove_block. cbn [filter fst].
  rewrite Nat.eqb_refl. cbn [negb].
  apply remove_block_fresh. exact Hwf.
Qed.

Lemma create_releases_driver_when_load_fails_witness :
  exists s',
    iree_hal_cuda_driver_create
      (missing_library (simulated_cuda [] nowhere nowhere))
      (list_ascii_of_string "cuda") iree_hal_cuda_driver_options_initialize
      generous heap_with_driver
    = Some ((iree_make_status IREE_STATUS_UNAVAILABLE
                              "CUDA driver library not found" [], None), s')
    /\ host_log s'
       = host_log heap_with_driver
         ++ [EvMalloc 68 (Some 1%nat); EvLoadSymbols false;
             EvUnloadSymbols false; EvFree (Some 1%nat)]
    /\ live s' = live heap_with_driver.
Proof.
  apply (create_releases_driver_when_load_fails
           (missing_library (simulated_cuda [] nowhere nowhere))
           (list_ascii_of_string "cuda") iree_hal_cuda_driver_options_initialize
           generous heap_with_driver eq_refl eq_refl).
  intros b sz [H|[]]. inversion H. simpl. lia.
Defined.

(** C7: for every identifier, driver creation makes exactly one allocation
    request, of [sizeof(iree_hal_cuda_driver_t)] plus the identifier's byte
    length; once the block is granted the identifier's bytes are in that
    block right behind the header, and the driver handed back has as its
    identifier a view of those bytes in the same block and as its default
    device index the one of the options. *)
Theorem create_packs_identifier_behind_header env ident options alloc s :
  0 <= sizeof_driver env ->
  sizeof_driver env + Z.of_nat (length ident) < 2 ^ 64 ->
  let total := sizeof_driver env + Z.of_nat (length ident) in
  let b := next_block s in
  exists status out s',
    iree_hal_cuda_driver_create env ident options alloc s
    = Some ((status, out), s')
    /\ (exists r tail,
           host_log s' = host_log s ++ EvMalloc total r :: tail
           /\ forall sz r', ~ In (EvMalloc sz r') tail)
    /\ (iree_status_is_ok (alloc_status alloc total) = true ->
        load_bytes (mem s') (mk_pointer b (sizeof_driver env)) (length ident)
        = map Some ident
        /\ (iree_status_is_ok (library_status env) = true ->
            exists d,
              status = iree_ok_status /\ out = Some d
              /\ self d = b
              /\ In (b, total) (live s')
              /\ identifier d
                 = mk_string_view (Some (mk_pointer b (sizeof_driver env)))
                                  (Z.of_nat (length ident))
              /\ view_bytes (mem s') (identifier d) = map Some ident
              /\ default_device_index d = opt_default_device_index options)).
Proof.
  intros Hs Hfit total b.
  assert (Ht : to_size (sizeof_driver env + Z.of_nat (length ident)) = total)
    by (apply to_size_small; unfold total; lia).
  assert (Hoff : total - Z.of_nat (length ident) = sizeof_driver env)
    by (unfold total; lia).
  destruct (iree_status_is_ok (alloc_status alloc total)) eqn:Ha.
  - destruct (iree_status_is_ok (library_status env)) eqn:Hl.
    + pose proof (create_loaded env ident options alloc s) as R.
      cbv zeta in R. rewrite Ht in R. rewrite (R Ha Hl). clear R.
      unfold after_identifier. rewrite Ht, Hoff.
      eexists. eexists. eexists. split; [reflexivity|].
      cbn [host_log mem live]. split.
      { exists (Some b), [EvLoadSymbols true]. split; [reflexivity|].
        intros sz r' [H|[]]. discriminate. }
      intros _. split; [apply load_bytes_store_bytes|].
      intros _. eexists. split; [reflexivity|]. split; [reflexivity|].
      cbn [self identifier default_device_index].
      split; [reflexivity|]. split; [left; reflexivity|].
      split; [reflexivity|]. split; [|reflexivity].
      unfold view_bytes. cbn [data size]. rewrite Nat2Z.id.
      apply load_bytes_store_bytes.
    + pose proof (create_load_failed env ident options alloc s) as R.
      cbv zeta in R. rewrite Ht in R. rewrite (R Ha Hl). clear R.
      unfold after_identifier. rewrite Ht, Hoff.
      eexists. eexists. eexists. split; [reflexivity|].
      cbn [host_log mem live]. split.
      { exists (Some b).
        exists [EvLoadSymbols false; EvUnloadSymbols false; EvFree (Some b)].
        split; [reflexivity|].
        intros sz r' [H|[H|[H|[]]]]; discriminate. }
      intros _. split; [apply load_bytes_store_bytes|].
      intros H. discriminate.
  - pose proof (create_alloc_failed env ident options alloc s) as R.
    cbv zeta in R. rewrite Ht in R. rewrite (R Ha). clear R.
    eexists. eexists. eexists. split; [reflexivity|].
    cbn [host_log]. split.
    { exists None, []. split; [reflexivity|]. intros sz r' []. }
    intros H. discriminate.
Qed.

Lemma create_packs_identifier_behind_header_witness :
  let env := simulated_env (simulated_cuda ["A100"]%string nowhere nowhere) in
  exists status out s',
    iree_hal_cuda_driver_create
      env (list_ascii_of_string "cuda") (mk_options 3) generous
      heap_with_driver
    = Some ((status, out), s')
    /\ (exists r tail,
           host_log s' = host_log heap_with_driver ++ EvMalloc 68 r :: tail
           /\ forall sz r', ~ In (EvMalloc sz r') tail)
    /\ exists d,
        out = Some d
        /\ identifier d = mk_string_view (Some (mk_pointer 1 64)) 4
        /\ view_bytes (mem s') (identifier d)
           = map Some (list_ascii_of_string "cuda")
        /\ default_device_index d = 3.
Proof.
  intros env.
  assert (H0 : 0 <= sizeof_driver env) by (cbv; discriminate).
  assert (H1 : sizeof_driver env
               + Z.of_nat (length (list_ascii_of_string "cuda")) < 2 ^ 64)
    by (cbv; reflexivity).
  destruct (create_packs_identifier_behind_header
              env (list_ascii_of_string "cuda") (mk_options 3) generous
              heap_with_driver H0 H1)
    as (status & out & s' & Hrun & Hlog & Hrest).
  destruct (Hrest eq_refl) as (_ & Hd).
  destruct (Hd eq_refl) as (d & _ & Hout & _ & _ & Hid & Hview & Hidx).
  exists status, out, s'. split; [exact Hrun|]. split; [exact Hlog|].
  exists d. repeat split; assumption.
Defined.

(** ** Choosing the device to create *)

Lemma device_create_run env label device s :
  iree_hal_cuda_device_create env label device s
  = Some ((device_create_status env device,
           if iree_status_is_ok (device_create_status env device)
           then Some (mk_device label device) else None),
          after_call s (CallDeviceCreate label device)).
Proof.
  unfold iree_hal_cuda_device_create. run.
  destruct (iree_status_is_ok (device_create_status env device)); reflexivity.
Qed.

(** C8, as stated, fails: the id 2^32 is not the unspecified id, and yet
    creating a device with it runs default device selection (the count and
    handle queries are made) and the device is created on the default
    device, here the one at index 1.  The id is converted to the 32-bit
    native handle before it is compared with 0. *)
Lemma id_with_zero_low_bits_selects_default_device :
  let t := simulated_cuda ["A100"; "V100"]%string nowhere nowhere in
  4294967296 <> IREE_HAL_DEVICE_ID_INVALID
  /\ size_range 4294967296
  /\ option_map (fun r => (fst r, cu_log (snd r)))
       (iree_hal_cuda_driver_create_device
          (simulated_env t) (simulated_driver t 1) 4294967296 generous
          heap_with_driver)
     = Some ((iree_ok_status, Some (mk_device "cuda" 1)),
             [CallInit 0; CallDeviceGetCount; CallDeviceGet 1;
              CallDeviceCreate "cuda" 1]).
Proof.
  split; [discriminate|]. split; [|vm_compute; reflexivity].
  split; [discriminate|reflexivity].
Qed.

(** C8 (amended): once the backend is initialised, device creation resolves
    the device by default device selection when the id, converted to the
    native handle type, is 0, which is the case of the unspecified id; any
    other id is used as the native handle it converts to (itself, for an id
    in the range of handles), and the device is created on it with no count
    or handle query. *)
Theorem create_device_branches_on_converted_id env driver id alloc t s :
  syms driver = Some t -> cuInit t 0 = CUDA_SUCCESS ->
  let s0 := after_call s (CallInit 0) in
  let by_default :=
    bind (iree_hal_cuda_driver_select_default_device
            t (default_device_index driver) alloc)
         (create_on env) s0 in
  (id = IREE_HAL_DEVICE_ID_INVALID ->
   iree_hal_cuda_driver_create_device env driver id alloc s = by_default)
  /\ (to_int id = 0 ->
      iree_hal_cuda_driver_create_device env driver id alloc s = by_default)
  /\ (to_int id <> 0 ->
      iree_hal_cuda_driver_create_device env driver id alloc s
      = Some ((device_create_status env (to_int id),
               if iree_status_is_ok (device_create_status env (to_int id))
               then Some (mk_device "cuda" (to_int id)) else None),
              after_call s0 (CallDeviceCreate "cuda" (to_int id))))
  /\ (0 < id < 2 ^ 31 -> to_int id = id).
Proof.
  intros Ht Hi s0 by_default.
  rewrite (create_device_run _ _ _ _ _ _ Ht Hi). fold s0.
  split; [|split; [|split]].
  - intros ->. reflexivity.
  - intros ->. reflexivity.
  - intros Hne. apply Z.eqb_neq in Hne. rewrite Hne.
    apply device_create_run.
  - intros Hr. apply to_int_small. lia.
Qed.

Lemma create_device_branches_on_converted_id_witness :
  let t := simulated_cuda ["A100"; "V100"]%string nowhere nowhere in
  iree_hal_cuda_driver_create_device
    (simulated_env t) (simulated_driver t 0) 1 generous heap_with_driver
  = Some ((iree_ok_status, Some (mk_device "cuda" 1)),
          after_call (after_call heap_with_driver (CallInit 0))
                     (CallDeviceCreate "cuda" 1)).
Proof.
  intros t.
  apply (proj1 (proj2 (proj2
           (create_device_branches_on_converted_id
              (simulated_env t) (simulated_driver t 0) 1 generous t
              heap_with_driver eq_refl eq_refl)))).
  discriminate.
Defined.

(** ** A failing name query *)

Lemma populate_devices_ignores_name_results env t n :
  forall i p a s,
    populate_devices env (name_results_dropped t) n i p a s
    = populate_devices env t n i p a s.
Proof.
  induction n as [|n IH]; intros i p a s.
  - reflexivity.
  - rewrite !populate_devices_step, !populate_device_info_run.
    change (resolves (name_results_dropped t) i) with (resolves t i).
    change (handle_at (name_results_dropped t) i) with (handle_at t i).
    change (device_name_buffer env (name_results_dropped t) (handle_at t i))
      with (device_name_buffer env t (handle_at t i)).
    destruct (resolves t i); [|reflexivity].
    destruct (strlen (device_name_buffer env t (handle_at t i)));
      [apply IH|reflexivity].
Qed.

(** C10: for every device resolved during enumeration, a failure of the
    native name query is ignored: the enumeration returns the ok status
    with the full count, the device's record is written with its id taken
    from the native handle, and the whole outcome (status, array, logs) is
    the one obtained when every name query reports success. *)
Theorem query_ignores_name_query_failure env driver alloc t N s i :
  syms driver = Some t -> cuDeviceGetCount t = (CUDA_SUCCESS, N) ->
  0 <= N < 2 ^ 31 ->
  iree_status_is_ok (alloc_status alloc (query_total_size env N)) = true ->
  terminated env t ->
  0 <= i < N -> (forall f, 0 <= f <= i -> resolves t f = true) ->
  fst (cuDeviceGetName t IREE_MAX_CUDA_DEVICE_NAME_LENGTH (handle_at t i))
  <> CUDA_SUCCESS ->
  exists a s' x,
    iree_hal_cuda_driver_query_available_devices env driver alloc s
    = Some (mk_query_result iree_ok_status (Some (next_block s, a)) (Some N),
            s')
    /\ nth_error a (Z.to_nat i) = Some (Some x)
    /\ device_id x = to_size (handle_at t i)
    /\ forall driver',
        syms driver' = Some (name_results_dropped t) ->
        iree_hal_cuda_driver_query_available_devices env driver' alloc s
        = iree_hal_cuda_driver_query_available_devices env driver alloc s.
Proof.
  intros Ht Hc HN Ha T Hi Hr _.
  assert (Same : forall driver',
             syms driver' = Some (name_results_dropped t) ->
             iree_hal_cuda_driver_query_available_devices env driver' alloc s
             = iree_hal_cuda_driver_query_available_devices env driver alloc s).
  { intros driver' Ht'.
    rewrite (query_alloc_granted env driver' alloc (name_results_dropped t) N s
               Ht' Hc Ha).
    rewrite (query_alloc_granted _ _ _ _ _ _ Ht Hc Ha).
    rewrite populate_devices_ignores_name_results. reflexivity. }
  rewrite (query_alloc_granted _ _ _ _ _ _ Ht Hc Ha) in *.
  assert (HN64 : 0 <= N < 2 ^ 64).
  { change (2 ^ 31) with 2147483648 in HN.
    change (2 ^ 64) with 18446744073709551616. lia. }
  rewrite (to_size_small N) in * by exact HN64.
  destruct (populate_devices_returns env t (Z.to_nat N) T 0
              (mk_pointer (next_block s)
                          (to_size (N * sizeof_device_info env)))
              (repeat None (Z.to_nat N))
              (after_malloc s (query_total_size env N)))
    as [[[p' a'] s'] E].
  rewrite E in *.
  assert (Hb : 0 + Z.of_nat (Z.to_nat N) < 2 ^ 64)
    by (rewrite Z2Nat.id by lia; lia).
  assert (Hj : 0 <= Z.of_nat (Z.to_nat i) < 0 + Z.of_nat (Z.to_nat N))
    by (rewrite !Z2Nat.id by lia; lia).
  assert (Hr' : forall f, 0 <= f <= Z.of_nat (Z.to_nat i) ->
                          resolves t f = true).
  { intros f Hf. apply Hr. rewrite Z2Nat.id in Hf by lia. exact Hf. }
  assert (Hl : (Z.to_nat i < length (repeat (@None iree_hal_device_info_t)
                                            (Z.to_nat N)))%nat)
    by (rewrite repeat_length; lia).
  destruct (populate_devices_populated _ _ _ _ _ _ _ _ _ _
              (Z.le_refl 0) Hb E (Z.to_nat i) Hj Hr' Hl) as (x & Hx & Hid).
  rewrite Z2Nat.id in Hid by lia.
  exists a', s', x. split; [reflexivity|]. split; [exact Hx|].
  split; [exact Hid|exact Same].
Qed.

Lemma query_ignores_name_query_failure_witness :
  let t := simulated_cuda ["A100"; "V100"]%string nowhere (fun d => d =? 1) in
  exists a s' x,
    iree_hal_cuda_driver_query_available_devices
      (simulated_env t) (simulated_driver t 0) generous heap_with_driver
    = Some (mk_query_result iree_ok_status (Some (1%nat, a)) (Some 2), s')
    /\ nth_error a 1 = Some (Some x)
    /\ device_id x = 1.
Proof.
  intros t.
  assert (HN : 0 <= 2 < 2 ^ 31) by (cbv; split; [discriminate|reflexivity]).
  assert (Hi : 0 <= 1 < 2) by (cbv; split; [discriminate|reflexivity]).
  assert (Hr : forall f, 0 <= f <= 1 -> resolves t f = true).
  { intros f Hf. assert (f = 0 \/ f = 1) as [-> | ->] by lia; reflexivity. }
  assert (Hfail : fst (cuDeviceGetName t IREE_MAX_CUDA_DEVICE_NAME_LENGTH
                                       (handle_at t 1)) <> CUDA_SUCCESS)
    by (cbv; discriminate).
  destruct (query_ignores_name_query_failure
              (simulated_env t) (simulated_driver t 0) generous t 2
              heap_with_driver 1 eq_refl eq_refl HN eq_refl
              (simulated_terminated _ _ _) Hi Hr Hfail)
    as (a & s' & x & Hq & Hx & Hid & _).
  exists a, s', x. split; [exact Hq|]. split; [exact Hx|exact Hid].
Defined.

(** With the name query failing for the second of two devices, both records
    are written and the second has the empty name found on the zeroed
    stack. *)
Example query_with_failing_name_query :
  let t := simulated_cuda ["A100"; "V100"]%string nowhere (fun d => d =? 1) in
  option_map fst
    (iree_hal_cuda_driver_query_available_devices
       (simulated_env t) (simulated_driver t 0) generous heap_with_driver)
  = Some (mk_query_result
            iree_ok_status
            (Some (1%nat,
                   [Some (mk_device_info
                            0 (mk_string_view (Some (mk_pointer 1 48)) 4));
                    Some (mk_device_info
                            1 (mk_string_view (Some (mk_pointer 1 52)) 0))]))
            (Some 2)).
Proof. vm_compute. reflexivity. Qed.

(** * Further properties of the driver *)

(** ** Memory written by the filling loop *)

Lemma load_byte_store_outside (bs : list ascii) :
  forall p m q, outside p q ->
    load_byte (store_bytes p bs m) q = load_byte m q.
Proof.
  induction bs as [|b bs IH]; intros p m q Hq; simpl.
  - reflexivity.
  - rewrite IH.
    + simpl. unfold pointer_eqb.
      destruct Hq as [Hb|Ho].
      * replace (blk p =? blk q)%nat with false
          by (symmetry; apply Nat.eqb_neq; congruence).
        reflexivity.
      * replace (off p =? off q) with false
          by (symmetry; apply Z.eqb_neq; lia).
        rewrite andb_false_r. reflexivity.
    + destruct Hq as [Hb|Ho]; [left; exact Hb|right; simpl; lia].
Qed.

Lemma load_bytes_ext (n : nat) :
  forall m1 m2 p,
    (forall q, blk q = blk p -> off p <= off q < off p + Z.of_nat n ->
               load_byte m1 q = load_byte m2 q) ->
    load_bytes m1 p n = load_bytes m2 p n.
Proof.
  induction n as [|n IH]; intros m1 m2 p H.
  - reflexivity.
  - cbn [load_bytes]. f_equal.
    + apply H; [reflexivity|lia].
    + apply IH. intros q Hb Ho. cbn [pointer_add blk off] in Hb, Ho.
      apply H; [exact Hb|lia].
Qed.

(** The loop stores bytes only from its cursor on, inside the cursor's
    block. *)
Lemma populate_devices_memory_frame env syms n :
  forall i p a s p' a' s',
    populate_devices env syms n i p a s = Some ((p', a'), s') ->
    forall q, outside p q -> load_byte (mem s') q = load_byte (mem s) q.
Proof.
  induction n as [|n IH]; intros i p a s p' a' s' H q Hq.
  - cbn in H. inversion H; subst. reflexivity.
  - rewrite populate_devices_step in H.
    destruct (resolves syms i).
    + rewrite populate_device_info_run in H.
      destruct (strlen (device_name_buffer env syms (handle_at syms i)))
        as [k|]; [|discriminate].
      rewrite (IH _ _ _ _ _ _ _ H q).
      * cbn [mem after_call]. apply load_byte_store_outside. exact Hq.
      * destruct Hq as [Hb|Ho]; [left; exact Hb|].
        right. cbn [pointer_add off]. lia.
    + inversion H; subst. reflexivity.
Qed.

(** Every record the loop writes from its counter on carries the id of the
    native handle at its index, and its name, read back from memory after
    the loop, is what the local array held before its first terminator. *)
Lemma populate_devices_records env syms n :
  forall i p a s p' a' s',
    0 <= i -> i + Z.of_nat n < 2 ^ 64 -> unwritten_from i a ->
    populate_devices env syms n i p a s = Some ((p', a'), s') ->
    forall j x, i <= Z.of_nat j -> nth_error a' j = Some (Some x) ->
      device_id x = to_size (handle_at syms (Z.of_nat j))
      /\ strlen (device_name_buffer env syms (handle_at syms (Z.of_nat j)))
         = Some (Z.to_nat (size (name x)))
      /\ view_bytes (mem s') (name x)
         = map Some (firstn (Z.to_nat (size (name x)))
                            (device_name_buffer
                               env syms (handle_at syms (Z.of_nat j)))).
Proof.
  induction n as [|n IH]; intros i p a s p' a' s' Hi Hn Hun H j x Hj Hx.
  - cbn in H. inversion H; subst. exfalso. exact (Hun j x Hj Hx).
  - rewrite populate_devices_step in H.
    destruct (resolves syms i).
    2:{ inversion H; subst. exfalso. exact (Hun j x Hj Hx). }
    rewrite populate_device_info_run in H.
    destruct (strlen (device_name_buffer env syms (handle_at syms i)))
      as [k|] eqn:E; [|discriminate].
    rewrite to_size_small in H by lia.
    destruct (Z.eq_dec (Z.of_nat j) i) as [Hji|Hne].
    + subst i.
      rewrite (populate_devices_before _ _ n (Z.of_nat j + 1) _ _ _ _ _ _
                 ltac:(lia) ltac:(lia) H j ltac:(lia)) in Hx.
      apply nth_error_store_info_cases in Hx.
      destruct Hx as [->|Hx]; [|exfalso; exact (Hun j x Hj Hx)].
      cbn [device_id name size]. rewrite Nat2Z.id.
      split; [reflexivity|]. split; [exact E|].
      unfold view_bytes. cbn [data size]. rewrite Nat2Z.id.
      pose proof (strlen_lt _ _ E) as Hk.
      rewrite device_name_buffer_length in Hk.
      assert (Hlen : length (firstn k (device_name_buffer
                                         env syms (handle_at syms (Z.of_nat j))))
                     = k)
        by (apply firstn_length_le; rewrite device_name_buffer_length; lia).
      rewrite (load_bytes_ext k (mem s')
                 (store_bytes p
                    (firstn k (device_name_buffer
                                 env syms (handle_at syms (Z.of_nat j))))
                    (mem s)) p).
      * pose proof (load_bytes_store_bytes
                      (firstn k (device_name_buffer
                                   env syms (handle_at syms (Z.of_nat j))))
                      p (mem s)) as L.
        rewrite Hlen in L. exact L.
      * intros q Hb Ho.
        apply (populate_devices_memory_frame _ _ _ _ _ _ _ _ _ _ H).
        right. cbn [pointer_add off]. lia.
    + assert (Hun1 : unwritten_from (i + 1)
                       (store_info (Z.to_nat i)
                          (mk_device_info (to_size (handle_at syms i))
                             (mk_string_view (Some p) (Z.of_nat k))) a)).
      { intros j' x' Hj' Hx'.
        rewrite nth_error_store_info_other in Hx' by lia.
        exact (Hun j' x' ltac:(lia) Hx'). }
      exact (IH (i + 1) _ _ _ _ _ _ ltac:(lia) ltac:(lia) Hun1 H j x
                ltac:(lia) Hx).
Qed.

(** The names are packed without gaps: the record at the counter has its
    name at the cursor, and the name of each next record starts where the
    previous one ends. *)
Lemma populate_devices_contiguous env syms n :
  forall i p a s p' a' s',
    0 <= i -> i + Z.of_nat n < 2 ^ 64 -> unwritten_from i a ->
    populate_devices env syms n i p a s = Some ((p', a'), s') ->
    (forall x, nth_error a' (Z.to_nat i) = Some (Some x) ->
               data (name x) = Some p)
    /\ forall j x y, i <= Z.of_nat j ->
         nth_error a' j = Some (Some x) ->
         nth_error a' (S j) = Some (Some y) ->
         exists q, data (name x) = Some q
                   /\ data (name y) = Some (pointer_add q (size (name x))).
Proof.
  induction n as [|n IH]; intros i p a s p' a' s' Hi Hn Hun H.
  - cbn in H. inversion H; subst. split.
    + intros x Hx. exfalso. apply (Hun (Z.to_nat i) x); [lia|exact Hx].
    + intros j x y Hj Hx _. exfalso. exact (Hun j x Hj Hx).
  - rewrite populate_devices_step in H.
    destruct (resolves syms i).
    2:{ inversion H; subst. split.
        - intros x Hx. exfalso. apply (Hun (Z.to_nat i) x); [lia|exact Hx].
        - intros j x y Hj Hx _. exfalso. exact (Hun j x Hj Hx). }
    rewrite populate_device_info_run in H.
    destruct (strlen (device_name_buffer env syms (handle_at syms i)))
      as [k|] eqn:E; [|discriminate].
    rewrite to_size_small in H by lia.
    assert (Hun1 : unwritten_from (i + 1)
                     (store_info (Z.to_nat i)
                        (mk_device_info (to_size (handle_at syms i))
                           (mk_string_view (Some p) (Z.of_nat k))) a)).
    { intros j' x' Hj' Hx'.
      rewrite nth_error_store_info_other in Hx' by lia.
      exact (Hun j' x' ltac:(lia) Hx'). }
    destruct (IH (i + 1) _ _ _ _ _ _ ltac:(lia) ltac:(lia) Hun1 H)
      as [Hfirst Hnext].
    assert (Hat : forall x, nth_error a' (Z.to_nat i) = Some (Some x) ->
                            x = mk_device_info (to_size (handle_at syms i))
                                  (mk_string_view (Some p) (Z.of_nat k))).
    { intros x Hx.
      rewrite (populate_devices_before _ _ n (i + 1) _ _ _ _ _ _
                 ltac:(lia) ltac:(lia) H (Z.to_nat i) ltac:(lia)) in Hx.
      apply nth_error_store_info_cases in Hx.
      destruct Hx as [->|Hx]; [reflexivity|].
      exfalso. apply (Hun (Z.to_nat i) x); [lia|exact Hx]. }
    split.
    + intros x Hx. rewrite (Hat x Hx). reflexivity.
    + intros j x y Hj Hx Hy.
      destruct (Z.eq_dec (Z.of_nat j) i) as [Hji|Hne].
      * assert (Z.to_nat i = j) as Hij by lia. rewrite <- Hij in Hx.
        rewrite (Hat x Hx). cbn [name data size].
        exists p. split; [reflexivity|].
        apply Hfirst. replace (Z.to_nat (i + 1)) with (S j) by lia. exact Hy.
      * apply (Hnext j x y); [lia|exact Hx|exact Hy].
Qed.

(** The loop makes handle and name queries only. *)
Lemma populate_devices_calls env syms n :
  forall i p a s p' a' s',
    populate_devices env syms n i p a s = Some ((p', a'), s') ->
    exists calls, cu_log s' = cu_log s ++ calls
                  /\ Forall (fun c => enumeration_call c = true) calls.
Proof.
  induction n as [|n IH]; intros i p a s p' a' s' H.
  - cbn in H. inversion H; subst. exists []. rewrite app_nil_r.
    split; [reflexivity|constructor].
  - rewrite populate_devices_step in H.
    destruct (resolves syms i).
    + rewrite populate_device_info_run in H.
      destruct (strlen (device_name_buffer env syms (handle_at syms i)))
        as [k|]; [|discriminate].
      destruct (IH _ _ _ _ _ _ _ H) as (calls & Hlog & Hall).
      cbn [cu_log after_call] in Hlog.
      exists (CallDeviceGet (to_int i)
              :: CallDeviceGetName IREE_MAX_CUDA_DEVICE_NAME_LENGTH
                                   (handle_at syms i) :: calls).
      split.
      * rewrite Hlog, <- !app_assoc. reflexivity.
      * constructor; [reflexivity|]. constructor; [reflexivity|exact Hall].
    + inversion H; subst. exists [CallDeviceGet (to_int i)].
      split; [reflexivity|]. constructor; [reflexivity|constructor].
Qed.

(** ** The enumeration on a granted block *)

Lemma unwritten_from_repeat (n : nat) :
  unwritten_from 0 (repeat None n).
Proof.
  intros j x _ H. exact (nth_error_repeat_None _ _ _ H).
Qed.

Lemma count_is_size (N : Z) : 0 <= N < 2 ^ 31 -> 0 <= N < 2 ^ 64.
Proof.
  intros HN. change (2 ^ 31) with 2147483648 in HN.
  change (2 ^ 64) with 18446744073709551616. lia.
Qed.

(** With the block granted, an outcome of the enumeration is an outcome of
    the filling loop on that block. *)
Lemma query_granted_inv env driver alloc t N s r s' :
  syms driver = Some t -> cuDeviceGetCount t = (CUDA_SUCCESS, N) ->
  0 <= N < 2 ^ 31 ->
  iree_status_is_ok (alloc_status alloc (query_total_size env N)) = true ->
  iree_hal_cuda_driver_query_available_devices env driver alloc s
  = Some (r, s') ->
  exists p' a,
    populate_devices env t (Z.to_nat N) 0
      (mk_pointer (next_block s) (to_size (N * sizeof_device_info env)))
      (repeat None (Z.to_nat N)) (after_malloc s (query_total_size env N))
    = Some ((p', a), s')
    /\ r = mk_query_result iree_ok_status (Some (next_block s, a)) (Some N).
Proof.
  intros Ht Hc HN Ha H.
  rewrite (query_alloc_granted _ _ _ _ _ _ Ht Hc Ha) in H.
  rewrite (to_size_small N) in H by (apply count_is_size; exact HN).
  destruct (populate_devices env t (Z.to_nat N) 0
              (mk_pointer (next_block s)
                          (to_size (N * sizeof_device_info env)))
              (repeat None (Z.to_nat N))
              (after_malloc s (query_total_size env N)))
    as [[[p' a'] s1]|]; [|discriminate].
  inversion H; subst. exists p', a'. split; reflexivity.
Qed.

(** With a terminator in every local name array the enumeration returns. *)
Lemma query_granted_returns env driver alloc t N s :
  syms driver = Some t -> cuDeviceGetCount t = (CUDA_SUCCESS, N) ->
  iree_status_is_ok (alloc_status alloc (query_total_size env N)) = true ->
  terminated env t ->
  exists r s',
    iree_hal_cuda_driver_query_available_devices env driver alloc s
    = Some (r, s').
Proof.
  intros Ht Hc Ha T.
  rewrite (query_alloc_granted _ _ _ _ _ _ Ht Hc Ha).
  destruct (populate_devices_returns env t (Z.to_nat (to_size N)) T 0
              (mk_pointer (next_block s)
                          (to_size (to_size N * sizeof_device_info env)))
              (repeat None (Z.to_nat (to_size N)))
              (after_malloc s (query_total_size env N)))
    as [[[p' a'] s1] E].
  rewrite E. eexists. eexists. reflexivity.
Qed.

(** X1: the records follow the native order.  The array has one record per
    counted device; every record that is written carries the id of the
    native handle at its own index, and the record at an index is written
    whenever the handle query succeeds at that index and at all indices
    before it. *)
Theorem query_records_follow_native_order env driver alloc t N s :
  syms driver = Some t -> cuDeviceGetCount t = (CUDA_SUCCESS, N) ->
  0 <= N < 2 ^ 31 ->
  iree_status_is_ok (alloc_status alloc (query_total_size env N)) = true ->
  terminated env t ->
  exists a s',
    iree_hal_cuda_driver_query_available_devices env driver alloc s
    = Some (mk_query_result iree_ok_status (Some (next_block s, a)) (Some N),
            s')
    /\ Z.of_nat (length a) = N
    /\ (forall j x, nth_error a j = Some (Some x) ->
                    device_id x = to_size (handle_at t (Z.of_nat j)))
    /\ (forall j, Z.of_nat j < N ->
                  (forall f, 0 <= f <= Z.of_nat j -> resolves t f = true) ->
                  exists x, nth_error a j = Some (Some x)).
Proof.
  intros Ht Hc HN Ha T.
  destruct (query_granted_returns env driver alloc t N s Ht Hc Ha T)
    as (r & s' & H).
  destruct (query_granted_inv _ _ _ _ _ _ _ _ Ht Hc HN Ha H)
    as (p' & a & E & ->).
  pose proof (count_is_size N HN) as HN64.
  assert (Hb : 0 + Z.of_nat (Z.to_nat N) < 2 ^ 64)
    by (rewrite Z2Nat.id by lia; lia).
  exists a, s'. split; [exact H|].
  pose proof (populate_devices_frame _ _ _ _ _ _ _ _ _ _ E)
    as (_ & _ & _ & Flen & _).
  rewrite repeat_length in Flen.
  split; [rewrite Flen; apply Z2Nat.id; lia|]. split.
  - intros j x Hx.
    exact (proj1 (populate_devices_records _ _ _ _ _ _ _ _ _ _
                    (Z.le_refl 0) Hb (unwritten_from_repeat _) E j x
                    (Nat2Z.is_nonneg j) Hx)).
  - intros j Hj Hr.
    assert (Hj' : 0 <= Z.of_nat j < 0 + Z.of_nat (Z.to_nat N))
      by (rewrite Z2Nat.id by lia; lia).
    assert (Hl : (j < length (repeat (@None iree_hal_device_info_t)
                                     (Z.to_nat N)))%nat)
      by (rewrite repeat_length; lia).
    destruct (populate_devices_populated _ _ _ _ _ _ _ _ _ _
                (Z.le_refl 0) Hb E j Hj' Hr Hl) as (x & Hx & _).
    exists x. exact Hx.
Qed.

Lemma query_records_follow_native_order_witness :
  let t := simulated_cuda ["A100"; "V100"; "T4"]%string nowhere nowhere in
  exists a s',
    iree_hal_cuda_driver_query_available_devices
      (simulated_env t) (simulated_driver t 0) generous heap_with_driver
    = Some (mk_query_result iree_ok_status (Some (1%nat, a)) (Some 3), s')
    /\ Z.of_nat (length a) = 3
    /\ exists x, nth_error a 2 = Some (Some x).
Proof.
  intros t.
  assert (HN : 0 <= 3 < 2 ^ 31) by (cbv; split; [discriminate|reflexivity]).
  destruct (query_records_follow_native_order
              (simulated_env t) (simulated_driver t 0) generous t 3
              heap_with_driver eq_refl eq_refl HN eq_refl
              (simulated_terminated _ _ _))
    as (a & s' & Hq & Hlen & _ & Hall).
  exists a, s'. split; [exact Hq|]. split; [exact Hlen|].
  apply (Hall 2%nat).
  - reflexivity.
  - intros f Hf.
    assert (f = 0 \/ f = 1 \/ f = 2) as [-> | [-> | ->]] by (simpl in Hf; lia);
      reflexivity.
Defined.

(** X2: the names can be read back.  After the enumeration the bytes every
    written record's name view denotes are what the local array of its
    device held before the first terminator; for a device whose name has at
    most 99 bytes, stored terminated by the name query, they are the name
    itself. *)
Theorem query_names_read_back env driver alloc t N s :
  syms driver = Some t -> cuDeviceGetCount t = (CUDA_SUCCESS, N) ->
  0 <= N < 2 ^ 31 ->
  iree_status_is_ok (alloc_status alloc (query_total_size env N)) = true ->
  terminated env t ->
  exists a s',
    iree_hal_cuda_driver_query_available_devices env driver alloc s
    = Some (mk_query_result iree_ok_status (Some (next_block s, a)) (Some N),
            s')
    /\ forall j x, nth_error a j = Some (Some x) ->
         let device := handle_at t (Z.of_nat j) in
         view_bytes (mem s') (name x)
         = map Some (firstn (Z.to_nat (size (name x)))
                            (device_name_buffer env t device))
         /\ forall nm,
             snd (cuDeviceGetName t IREE_MAX_CUDA_DEVICE_NAME_LENGTH device)
             = native_device_name nm IREE_MAX_CUDA_DEVICE_NAME_LENGTH ->
             (forall c, In c nm -> c <> zero) ->
             (length nm <= 99)%nat ->
             size (name x) = Z.of_nat (length nm)
             /\ view_bytes (mem s') (name x) = map Some nm.
Proof.
  intros Ht Hc HN Ha T.
  destruct (query_granted_returns env driver alloc t N s Ht Hc Ha T)
    as (r & s' & H).
  destruct (query_granted_inv _ _ _ _ _ _ _ _ Ht Hc HN Ha H)
    as (p' & a & E & ->).
  pose proof (count_is_size N HN) as HN64.
  assert (Hb : 0 + Z.of_nat (Z.to_nat N) < 2 ^ 64)
    by (rewrite Z2Nat.id by lia; lia).
  exists a, s'. split; [exact H|].
  intros j x Hx device.
  destruct (populate_devices_records _ _ _ _ _ _ _ _ _ _
              (Z.le_refl 0) Hb (unwritten_from_repeat _) E j x
              (Nat2Z.is_nonneg j) Hx) as (_ & Hlen & Hbytes).
  fold device in Hlen, Hbytes. split; [exact Hbytes|].
  intros nm Hw Hnz Hnm.
  destruct (device_name_buffer_written env t device _ Hw) as [rest Hbuf].
  { unfold native_device_name. rewrite length_app, length_firstn.
    change (Z.to_nat (IREE_MAX_CUDA_DEVICE_NAME_LENGTH - 1)) with 99%nat.
    cbn [length]. lia. }
  unfold native_device_name in Hbuf.
  change (Z.to_nat (IREE_MAX_CUDA_DEVICE_NAME_LENGTH - 1)) with 99%nat in Hbuf.
  rewrite firstn_all2 in Hbuf by exact Hnm.
  rewrite <- app_assoc in Hbuf. cbn [app] in Hbuf.
  rewrite Hbuf, (strlen_prefix nm rest Hnz) in Hlen.
  inversion Hlen as [Hsz].
  assert (Hsize : size (name x) = Z.of_nat (length nm)).
  { pose proof (Z2Nat.id (size (name x))) as Hid.
    destruct (Z_lt_le_dec (size (name x)) 0) as [Hneg|Hpos].
    - exfalso.
      assert (Z.to_nat (size (name x)) = 0%nat) as Hz by lia.
      rewrite Hz in Hsz.
      destruct (populate_devices_views _ _ _ _ _ _ _ _ _ _ E j x Hx)
        as [Hold|(q & _ & _ & _ & Hs & _)].
      + exact (nth_error_repeat_None _ _ _ Hold).
      + lia.
    - lia. }
  split; [exact Hsize|].
  rewrite Hbytes, Hbuf, <- Hsz.
  rewrite firstn_app, Nat.sub_diag, firstn_O, app_nil_r.
  rewrite firstn_all. reflexivity.
Qed.

Lemma query_names_read_back_witness :
  let t := simulated_cuda ["A100"; "V100"]%string nowhere nowhere in
  exists a s',
    iree_hal_cuda_driver_query_available_devices
      (simulated_env t) (simulated_driver t 0) generous heap_with_driver
    = Some (mk_query_result iree_ok_status (Some (1%nat, a)) (Some 2), s')
    /\ forall x, nth_error a 1 = Some (Some x) ->
         view_bytes (mem s') (name x)
         = map Some (list_ascii_of_string "V100").
Proof.
  intros t.
  assert (HN : 0 <= 2 < 2 ^ 31) by (cbv; split; [discriminate|reflexivity]).
  destruct (query_names_read_back
              (simulated_env t) (simulated_driver t 0) generous t 2
              heap_with_driver eq_refl eq_refl HN eq_refl
              (simulated_terminated _ _ _))
    as (a & s' & Hq & Hnames).
  exists a, s'. split; [exact Hq|].
  intros x Hx.
  destruct (Hnames 1%nat x Hx) as (_ & Hnm).
  apply (Hnm (list_ascii_of_string "V100")).
  - reflexivity.
  - intros c Hc E. subst c. revert Hc. vm_compute. intuition discriminate.
  - simpl. lia.
Defined.

(** X3: the names are packed without gaps.  The name of record 0, when
    written, starts right behind the [N] records, and the name of every
    further written record starts where the name of the record before it
    ends. *)
Theorem query_packs_names_without_gaps env driver alloc t N s :
  0 <= sizeof_device_info env < 2 ^ 32 ->
  syms driver = Some t -> cuDeviceGetCount t = (CUDA_SUCCESS, N) ->
  0 <= N < 2 ^ 31 ->
  iree_status_is_ok (alloc_status alloc (query_total_size env N)) = true ->
  terminated env t ->
  exists a s',
    iree_hal_cuda_driver_query_available_devices env driver alloc s
    = Some (mk_query_result iree_ok_status (Some (next_block s, a)) (Some N),
            s')
    /\ (forall x, nth_error a 0 = Some (Some x) ->
                  data (name x)
                  = Some (mk_pointer (next_block s)
                                     (N * sizeof_device_info env)))
    /\ forall j x y,
        nth_error a j = Some (Some x) -> nth_error a (S j) = Some (Some y) ->
        exists q, data (name x) = Some q
                  /\ data (name y) = Some (pointer_add q (size (name x))).
Proof.
  intros HS Ht Hc HN Ha T.
  destruct (query_granted_returns env driver alloc t N s Ht Hc Ha T)
    as (r & s' & H).
  destruct (query_granted_inv _ _ _ _ _ _ _ _ Ht Hc HN Ha H)
    as (p' & a & E & ->).
  pose proof (count_is_size N HN) as HN64.
  assert (Hb : 0 + Z.of_nat (Z.to_nat N) < 2 ^ 64)
    by (rewrite Z2Nat.id by lia; lia).
  assert (Hheader : to_size (N * sizeof_device_info env)
                    = N * sizeof_device_info env).
  { apply to_size_small. change (2 ^ 32) with 4294967296 in HS.
    change (2 ^ 31) with 2147483648 in HN.
    change (2 ^ 64) with 18446744073709551616. nia. }
  rewrite Hheader in E.
  destruct (populate_devices_contiguous _ _ _ _ _ _ _ _ _ _
              (Z.le_refl 0) Hb (unwritten_from_repeat _) E)
    as [Hfirst Hnext].
  exists a, s'. split; [exact H|]. split.
  - exact Hfirst.
  - intros j x y Hx Hy. exact (Hnext j x y (Nat2Z.is_nonneg j) Hx Hy).
Qed.

Lemma query_packs_names_without_gaps_witness :
  let t := simulated_cuda ["A100"; "V100"]%string nowhere nowhere in
  exists a s',
    iree_hal_cuda_driver_query_available_devices
      (simulated_env t) (simulated_driver t 0) generous heap_with_driver
    = Some (mk_query_result iree_ok_status (Some (1%nat, a)) (Some 2), s')
    /\ forall x, nth_error a 0 = Some (Some x) ->
                 data (name x) = Some (mk_pointer 1 48).
Proof.
  intros t.
  assert (HS : 0 <= sizeof_device_info (simulated_env t) < 2 ^ 32)
    by (cbv; split; [discriminate|reflexivity]).
  assert (HN : 0 <= 2 < 2 ^ 31) by (cbv; split; [discriminate|reflexivity]).
  destruct (query_packs_names_without_gaps
              (simulated_env t) (simulated_driver t 0) generous t 2
              heap_with_driver HS eq_refl eq_refl HN eq_refl
              (simulated_terminated _ _ _))
    as (a & s' & Hq & Hfirst & _).
  exists a, s'. split; [exact Hq|exact Hfirst].
Defined.

(** ** What the enumeration leaves alone *)

(** The three ways the enumeration ends, for any outcome of the count
    query. *)
Lemma query_cases env driver alloc t s r s' :
  syms driver = Some t ->
  iree_hal_cuda_driver_query_available_devices env driver alloc s
  = Some (r, s') ->
  let N := snd (cuDeviceGetCount t) in
  (fst (cuDeviceGetCount t) <> CUDA_SUCCESS
   /\ r = mk_query_result
            (CU_RESULT_TO_STATUS (fst (cuDeviceGetCount t)) "cuDeviceGetCount")
            None None
   /\ s' = after_call s CallDeviceGetCount)
  \/ (fst (cuDeviceGetCount t) = CUDA_SUCCESS
      /\ iree_status_is_ok (alloc_status alloc (query_total_size env N))
         = false
      /\ r = mk_query_result (alloc_status alloc (query_total_size env N))
                             None None
      /\ s' = mk_state (host_log s ++ [EvMalloc (query_total_size env N) None]
                        ++ [EvFree None])
                       (live s) (next_block s)
                       (cu_log s ++ [CallDeviceGetCount]) (mem s))
  \/ (fst (cuDeviceGetCount t) = CUDA_SUCCESS
      /\ iree_status_is_ok (alloc_status alloc (query_total_size env N))
         = true
      /\ exists p' a,
          populate_devices env t (Z.to_nat (to_size N)) 0
            (mk_pointer (next_block s)
                        (to_size (to_size N * sizeof_device_info env)))
            (repeat None (Z.to_nat (to_size N)))
            (after_malloc s (query_total_size env N))
          = Some ((p', a), s')
          /\ r = mk_query_result iree_ok_status (Some (next_block s, a))
                                 (Some (to_size N))).
Proof.
  intros Ht H N. unfold N. clear N.
  destruct (cuDeviceGetCount t) as [r0 N] eqn:Hc. cbn [fst snd].
  destruct (Z.eq_dec r0 CUDA_SUCCESS) as [->|Hr].
  - destruct (iree_status_is_ok (alloc_status alloc (query_total_size env N)))
      eqn:Ha.
    + right. right. split; [reflexivity|]. split; [reflexivity|].
      rewrite (query_alloc_granted _ _ _ _ _ _ Ht Hc Ha) in H.
      destruct (populate_devices _ _ _ _ _ _ _) as [[[p' a'] s1]|];
        [|discriminate].
      inversion H; subst. exists p', a'. split; reflexivity.
    + right. left. split; [reflexivity|]. split; [reflexivity|].
      rewrite (query_alloc_failed _ _ _ _ _ _ Ht Hc Ha) in H.
      inversion H; subst. split; reflexivity.
  - left. split; [exact Hr|].
    rewrite (query_count_failed _ _ _ _ _ _ _ Ht Hc Hr) in H.
    inversion H; subst. split; reflexivity.
Qed.



(** X5: the out-parameters are assigned exactly when the status is ok, and
    the outstanding allocations change accordingly: with the ok status the
    array is the one new outstanding block, of the requested size, and the
    count is the one the count query stored; with any other status neither
    out-parameter is assigned and no allocation is left behind. *)
Theorem query_outputs_follow_status env driver alloc t s r s' :
  syms driver = Some t ->
  iree_hal_cuda_driver_query_available_devices env driver alloc s
  = Some (r, s') ->
  let N := snd (cuDeviceGetCount t) in
  (iree_status_is_ok (query_status r) = true ->
   exists a,
     out_device_infos r = Some (next_block s, a)
     /\ out_device_info_count r = Some (to_size N)
     /\ live s' = (next_block s, query_total_size env N) :: live s)
  /\ (iree_status_is_ok (query_status r) = false ->
      out_device_infos r = None /\ out_device_info_count r = None
      /\ live s' = live s).
Proof.
  intros Ht H N. unfold N. clear N.
  pose proof (query_cases _ _ _ _ _ _ _ Ht H) as C. cbv zeta in C.
  destruct C
    as [(Hr & -> & ->)|[(_ & Ha & -> & ->)|(_ & _ & p' & a & E & ->)]].
  - split; intros Hok; cbn [query_status] in Hok.
    + unfold CU_RESULT_TO_STATUS in Hok. apply Z.eqb_neq in Hr.
      rewrite Hr in Hok. discriminate.
    + repeat split.
  - split; intros Hok; cbn [query_status] in Hok.
    + rewrite Ha in Hok. discriminate.
    + repeat split.
  - split; intros Hok; cbn [query_status] in Hok; [|discriminate].
    exists a. split; [reflexivity|]. split; [reflexivity|].
    pose proof (populate_devices_frame _ _ _ _ _ _ _ _ _ _ E)
      as (_ & Fl & _). exact Fl.
Qed.

Lemma query_outputs_follow_status_witness :
  let t := simulated_cuda ["A100"; "V100"]%string nowhere nowhere in
  exists r s' a,
    iree_hal_cuda_driver_query_available_devices
      (simulated_env t) (simulated_driver t 0) generous heap_with_driver
    = Some (r, s')
    /\ out_device_infos r = Some (1%nat, a)
    /\ out_device_info_count r = Some 2
    /\ live s' = [(1%nat, 248); (0%nat, 68)].
Proof.
  intros t.
  destruct (iree_hal_cuda_driver_query_available_devices
              (simulated_env t) (simulated_driver t 0) generous
              heap_with_driver) as [[r s']|] eqn:H.
  - destruct (proj1 (query_outputs_follow_status
                       (simulated_env t) (simulated_driver t 0) generous t
                       heap_with_driver r s' eq_refl H))
      as (a & Ha).
    + revert H. vm_compute. intros H. inversion H. reflexivity.
    + exists r, s', a. split; [reflexivity|exact Ha].
  - exfalso. revert H. vm_compute. discriminate.
Defined.

(** X6: the enumeration never initialises the backend: after the count
    query, the only native calls it makes are handle and name queries. *)
Theorem query_never_initialises env driver alloc t s r s' :
  syms driver = Some t ->
  iree_hal_cuda_driver_query_available_devices env driver alloc s
  = Some (r, s') ->
  exists calls,
    cu_log s' = cu_log s ++ CallDeviceGetCount :: calls
    /\ Forall (fun c => enumeration_call c = true) calls.
Proof.
  intros Ht H.
  destruct (query_cases _ _ _ _ _ _ _ Ht H)
    as [(_ & _ & ->)|[(_ & _ & _ & ->)|(_ & _ & p' & a & E & _)]].
  - exists []. split; [reflexivity|constructor].
  - exists []. split; [reflexivity|constructor].
  - destruct (populate_devices_calls _ _ _ _ _ _ _ _ _ _ E)
      as (calls & Hlog & Hall).
    exists calls. split; [|exact Hall].
    rewrite Hlog. cbn [cu_log after_malloc]. rewrite <- app_assoc.
    reflexivity.
Qed.

Lemma query_never_initialises_witness :
  let t := simulated_cuda ["A100"; "V100"]%string nowhere nowhere in
  exists r s' calls,
    iree_hal_cuda_driver_query_available_devices
      (simulated_env t) (simulated_driver t 0) generous heap_with_driver
    = Some (r, s')
    /\ cu_log s' = cu_log heap_with_driver ++ CallDeviceGetCount :: calls
    /\ Forall (fun c => enumeration_call c = true) calls.
Proof.
  intros t.
  destruct (iree_hal_cuda_driver_query_available_devices
              (simulated_env t) (simulated_driver t 0) generous
              heap_with_driver) as [[r s']|] eqn:H.
  - destruct (query_never_initialises
                (simulated_env t) (simulated_driver t 0) generous t
                heap_with_driver r s' eq_refl H) as (calls & Hc).
    exists r, s', calls. split; [reflexivity|exact Hc].
  - exfalso. revert H. vm_compute. discriminate.
Defined.

(** X7: the loop that adds the name bytes to the size computes a product:
    for every count the size requested is the record bytes plus 100 bytes
    per device, in [size_t] arithmetic. *)
Theorem query_total_size_closed_form env N :
  query_total_size env N
  = to_size (to_size N * sizeof_device_info env
             + IREE_MAX_CUDA_DEVICE_NAME_LENGTH * to_size N).
Proof.
  unfold query_total_size. rewrite add_name_sizes_spec.
  rewrite Z2Nat.id by (apply to_size_range). reflexivity.
Qed.

(** ** The life of a driver *)

(** X8: creating a driver and destroying it gives the heap back.  When the
    block is granted and the symbols load, destroying the driver handed
    back unloads the symbols first and then frees the one block that was
    allocated, after which the outstanding allocations are those from
    before the creation. *)
Theorem create_then_destroy_restores_heap env ident options alloc s :
  let total := to_size (sizeof_driver env + Z.of_nat (length ident)) in
  iree_status_is_ok (alloc_status alloc total) = true ->
  iree_status_is_ok (library_status env) = true ->
  heap_wf s ->
  exists d s1 s2,
    iree_hal_cuda_driver_create env ident options alloc s
    = Some ((iree_ok_status, Some d), s1)
    /\ iree_hal_cuda_driver_destroy d s1 = Some (tt, s2)
    /\ host_log s2
       = host_log s ++ [EvMalloc total (Some (next_block s));
                        EvLoadSymbols true; EvUnloadSymbols true;
                        EvFree (Some (next_block s))]
    /\ live s2 = live s.
Proof.
  intros total Ha Hl Hwf.
  rewrite (create_loaded env ident options alloc s Ha Hl).
  eexists. eexists. eexists. split; [reflexivity|].
  unfold iree_hal_cuda_driver_destroy, unload_symbols, iree_allocator_free,
    after_identifier.
  run. split; [reflexivity|]. split.
  - rewrite <- !app_assoc. reflexivity.
  - rewrite Nat.eqb_refl. cbn [negb]. apply remove_block_fresh. exact Hwf.
Qed.

Lemma create_then_destroy_restores_heap_witness :
  let env := simulated_env (simulated_cuda ["A100"]%string nowhere nowhere) in
  exists d s1 s2,
    iree_hal_cuda_driver_create
      env (list_ascii_of_string "cuda") iree_hal_cuda_driver_options_initialize
      generous heap_with_driver
    = Some ((iree_ok_status, Some d), s1)
    /\ iree_hal_cuda_driver_destroy d s1 = Some (tt, s2)
    /\ host_log s2
       = host_log heap_with_driver
         ++ [EvMalloc 68 (Some 1%nat); EvLoadSymbols true;
             EvUnloadSymbols true; EvFree (Some 1%nat)]
    /\ live s2 = live heap_with_driver.
Proof.
  intros env.
  apply (create_then_destroy_restores_heap
           env (list_ascii_of_string "cuda")
           iree_hal_cuda_driver_options_initialize generous heap_with_driver
           eq_refl eq_refl).
  intros b sz [H|[]]. inversion H. simpl. lia.
Defined.

(** X9: a driver is handed back exactly when the status is ok, and no
    failure leaks.  With the ok status the driver has one reference, a
    loaded symbol table and its block is the one new outstanding
    allocation; with any other status, be it the allocator's or the
    loader's, no driver is stored and the outstanding allocations are those
    from before the call. *)
Theorem create_hands_back_driver_iff_ok env ident options alloc s st out s' :
  heap_wf s ->
  iree_hal_cuda_driver_create env ident options alloc s
  = Some ((st, out), s') ->
  let total := to_size (sizeof_driver env + Z.of_nat (length ident)) in
  (iree_status_is_ok st = true ->
   exists d,
     out = Some d /\ self d = next_block s
     /\ ref_count (resource d) = 1
     /\ syms d = Some (library_symbols env)
     /\ live s' = (next_block s, total) :: live s)
  /\ (iree_status_is_ok st = false -> out = None /\ live s' = live s).
Proof.
  intros Hwf H total.
  destruct (iree_status_is_ok (alloc_status alloc total)) eqn:Ha.
  - destruct (iree_status_is_ok (library_status env)) eqn:Hl.
    + rewrite (create_loaded env ident options alloc s Ha Hl) in H.
      inversion H; subst. split; intros Hok; [|discriminate].
      eexists. split; [reflexivity|]. repeat split.
    + rewrite (create_load_failed env ident options alloc s Ha Hl) in H.
      inversion H; subst. split; intros Hok; [congruence|].
      split; [reflexivity|].
      unfold after_identifier. cbn [live]. unfold remove_block.
      cbn [filter fst]. rewrite Nat.eqb_refl. cbn [negb].
      apply remove_block_fresh. exact Hwf.
  - rewrite (create_alloc_failed env ident options alloc s Ha) in H.
    inversion H; subst. split; intros Hok.
    + fold total in Hok. congruence.
    + split; reflexivity.
Qed.

Lemma create_hands_back_driver_iff_ok_witness :
  let env := missing_library (simulated_cuda [] nowhere nowhere) in
  exists st s',
    iree_hal_cuda_driver_create
      env (list_ascii_of_string "cuda") iree_hal_cuda_driver_options_initialize
      strict heap_with_driver
    = Some ((st, None), s')
    /\ iree_status_is_ok st = false
    /\ live s' = live heap_with_driver.
Proof.
  intros env.
  destruct (iree_hal_cuda_driver_create
              env (list_ascii_of_string "cuda")
              iree_hal_cuda_driver_options_initialize strict heap_with_driver)
    as [[[st out] s']|] eqn:H.
  - assert (Hst : iree_status_is_ok st = false)
      by (revert H; vm_compute; intros H; inversion H; reflexivity).
    destruct (proj2 (create_hands_back_driver_iff_ok
                       env (list_ascii_of_string "cuda")
                       iree_hal_cuda_driver_options_initialize strict
                       heap_with_driver st out s'
                       ltac:(intros b sz [E|[]]; inversion E; simpl; lia) H)
                    Hst) as (Hout & Hlive).
    subst out. exists st, s'. split; [reflexivity|]. split; assumption.
  - exfalso. revert H. vm_compute. discriminate.
Defined.

(** ** Selecting and creating a device *)

(** X10: default device selection assigns a device exactly when it returns
    the ok status, and then the device is the native handle at the default
    index, which is below a non-zero count; when the count query fails its
    status is returned and no handle query is made. *)
Theorem select_default_device_assigns_iff_ok t d alloc s st out s' :
  iree_hal_cuda_driver_select_default_device t d alloc s
  = Some ((st, out), s') ->
  (iree_status_is_ok st = true <-> out <> None)
  /\ (forall device, out = Some device ->
        fst (cuDeviceGetCount t) = CUDA_SUCCESS
        /\ snd (cuDeviceGetCount t) <> 0 /\ d < snd (cuDeviceGetCount t)
        /\ cuDeviceGet t d = (CUDA_SUCCESS, device))
  /\ (fst (cuDeviceGetCount t) <> CUDA_SUCCESS ->
      st = CU_RESULT_TO_STATUS (fst (cuDeviceGetCount t)) "cuDeviceGetCount"
      /\ cu_log s' = cu_log s ++ [CallDeviceGetCount]).
Proof.
  intros H.
  destruct (cuDeviceGetCount t) as [r0 N] eqn:Hc. cbn [fst snd].
  destruct (Z.eq_dec r0 CUDA_SUCCESS) as [->|Hr].
  - rewrite (select_default_device_run _ _ _ _ _ Hc) in H.
    destruct ((N =? 0) || (d >=? N)) eqn:Hg.
    + inversion H; subst. split; [|split].
      * split; [discriminate|congruence].
      * intros device Hd. discriminate.
      * intros Hne. congruence.
    + apply orb_false_iff in Hg. destruct Hg as [Hz Hge].
      apply Z.eqb_neq in Hz. rewrite Z.geb_leb in Hge.
      apply Z.leb_gt in Hge. cbv zeta in H.
      destruct (cuDeviceGet t d) as [r1 dev] eqn:Hget. cbn [fst snd] in H.
      unfold CU_RESULT_TO_STATUS in H.
      destruct (r1 =? CUDA_SUCCESS) eqn:Hr1.
      * apply Z.eqb_eq in Hr1. subst r1. inversion H; subst.
        split; [|split].
        -- split; [discriminate|reflexivity].
        -- intros device Hd. inversion Hd; subst.
           repeat split; assumption.
        -- intros Hne. congruence.
      * cbn [iree_status_is_ok] in H. inversion H; subst.
        split; [|split].
        -- split; [discriminate|congruence].
        -- intros device Hd. discriminate.
        -- intros Hne. congruence.
  - unfold iree_hal_cuda_driver_select_default_device in H.
    revert H. run. rewrite Hc. unfold CU_RESULT_TO_STATUS.
    pose proof Hr as Hr'. apply Z.eqb_neq in Hr'. rewrite Hr'. cbn.
    intros H. inversion H; subst. split; [|split].
    + split; [discriminate|congruence].
    + intros device Hd. discriminate.
    + intros _. split; reflexivity.
Qed.

Lemma select_default_device_assigns_iff_ok_witness :
  let t := simulated_cuda ["A100"; "V100"]%string nowhere nowhere in
  exists st out s',
    iree_hal_cuda_driver_select_default_device t 1 generous heap_with_driver
    = Some ((st, out), s')
    /\ (iree_status_is_ok st = true <-> out <> None)
    /\ forall device, out = Some device ->
                      cuDeviceGet t 1 = (CUDA_SUCCESS, device).
Proof.
  intros t.
  destruct (iree_hal_cuda_driver_select_default_device
              t 1 generous heap_with_driver) as [[[st out] s']|] eqn:H.
  - destruct (select_default_device_assigns_iff_ok
                t 1 generous heap_with_driver st out s' H)
      as (Hiff & Hdev & _).
    exists st, out, s'. split; [reflexivity|]. split; [exact Hiff|].
    intros device Hd. exact (proj2 (proj2 (proj2 (Hdev device Hd)))).
  - exfalso. revert H. vm_compute. discriminate.
Defined.

Lemma select_default_device_log t d alloc s r s1 :
  iree_hal_cuda_driver_select_default_device t d alloc s = Some (r, s1) ->
  exists calls, cu_log s1 = cu_log s ++ calls.
Proof.
  unfold iree_hal_cuda_driver_select_default_device. run.
  destruct (cuDeviceGetCount t) as [r0 N].
  destruct (iree_status_is_ok (CU_RESULT_TO_STATUS r0 "cuDeviceGetCount"));
    cbn.
  - destruct ((N =? 0) || (d >=? N)); cbn.
    + intros H. inversion H; subst. eexists. reflexivity.
    + destruct (cuDeviceGet t d) as [r1 dev].
      destruct (iree_status_is_ok (CU_RESULT_TO_STATUS r1 "cuDeviceGet"));
        cbn; intros H; inversion H; subst; cbn;
        rewrite <- app_assoc; eexists; reflexivity.
  - intros H. inversion H; subst. eexists. reflexivity.
Qed.

(** X11: device creation initialises the backend before anything else.
    Whatever the id, the first native call is [cuInit(0)]; when it fails,
    its status is returned, no device is stored and no other native call is
    made; a device that is stored always carries the label "cuda", and for
    an id that does not convert to handle 0 it is on the handle the id
    converts to. *)
Theorem create_device_initialises_first env driver id alloc t s st out s' :
  syms driver = Some t ->
  iree_hal_cuda_driver_create_device env driver id alloc s
  = Some ((st, out), s') ->
  (exists rest, cu_log s' = cu_log s ++ CallInit 0 :: rest)
  /\ (cuInit t 0 <> CUDA_SUCCESS ->
      st = CU_RESULT_TO_STATUS (cuInit t 0) "cuInit" /\ out = None
      /\ cu_log s' = cu_log s ++ [CallInit 0])
  /\ (forall device, out = Some device ->
        cuInit t 0 = CUDA_SUCCESS
        /\ device_label device = "cuda"%string
        /\ (to_int id <> 0 -> device_handle device = to_int id)).
Proof.
  intros Ht H.
  destruct (Z.eq_dec (cuInit t 0) CUDA_SUCCESS) as [Hi|Hi].
  - rewrite (create_device_run _ _ _ _ _ _ Ht Hi) in H.
    destruct (to_int id =? 0) eqn:Hid.
    + unfold bind in H.
      destruct (iree_hal_cuda_driver_select_default_device
                  t (default_device_index driver) alloc
                  (after_call s (CallInit 0)))
        as [[[st1 ch] s1]|] eqn:Hsel; [|discriminate].
      destruct (select_default_device_log _ _ _ _ _ _ Hsel) as (calls & Hlog).
      cbn [cu_log after_call] in Hlog.
      unfold create_on in H.
      destruct (iree_status_is_ok st1); cbn [negb] in H.
      * destruct ch as [dev|]; [|discriminate].
        rewrite device_create_run in H. inversion H; subst.
        split; [|split].
        -- exists (calls ++ [CallDeviceCreate "cuda" dev]).
           cbn [cu_log after_call]. rewrite Hlog, <- !app_assoc. reflexivity.
        -- intros Hne. contradiction.
        -- intros device Hd.
           destruct (iree_status_is_ok (device_create_status env dev));
             [|discriminate].
           inversion Hd; subst. split; [exact Hi|]. split; [reflexivity|].
           apply Z.eqb_eq in Hid. intros Hne. contradiction.
      * inversion H; subst. split; [|split].
        -- exists calls. rewrite Hlog, <- app_assoc. reflexivity.
        -- intros Hne. contradiction.
        -- intros device Hd. discriminate.
    + rewrite device_create_run in H. inversion H; subst.
      split; [|split].
      * exists [CallDeviceCreate "cuda" (to_int id)].
        cbn [cu_log after_call]. rewrite <- app_assoc. reflexivity.
      * intros Hne. contradiction.
      * intros device Hd.
        destruct (iree_status_is_ok (device_create_status env (to_int id)));
          [|discriminate].
        inversion Hd; subst. split; [exact Hi|]. split; reflexivity.
  - rewrite (create_device_init_failed _ _ _ _ _ _ Ht Hi) in H.
    inversion H; subst. split; [|split].
    + exists []. reflexivity.
    + intros _. repeat split.
    + intros device Hd. discriminate.
Qed.

Lemma create_device_initialises_first_witness :
  let t := simulated_cuda ["A100"; "V100"]%string nowhere nowhere in
  exists st out s' rest,
    iree_hal_cuda_driver_create_device
      (simulated_env t) (simulated_driver t 0) 1 generous heap_with_driver
    = Some ((st, out), s')
    /\ cu_log s' = cu_log heap_with_driver ++ CallInit 0 :: rest.
Proof.
  intros t.
  destruct (iree_hal_cuda_driver_create_device
              (simulated_env t) (simulated_driver t 0) 1 generous
              heap_with_driver) as [[[st out] s']|] eqn:H.
  - destruct (proj1 (create_device_initialises_first
                       (simulated_env t) (simulated_driver t 0) 1 generous t
                       heap_with_driver st out s' eq_refl H)) as (rest & Hr).
    exists st, out, s', rest. split; [reflexivity|exact Hr].
  - exfalso. revert H. vm_compute. discriminate.
Defined.

Lemma to_int_to_size (h : Z) : int_range h -> to_int (to_size h) = h.
Proof.
  intros Hr. unfold int_range in Hr. unfold to_int, to_size.
  assert (E : (h mod 2 ^ 64 + 2 ^ 31) mod 2 ^ 32 = (h + 2 ^ 31) mod 2 ^ 32).
  { rewrite Z.add_mod by lia.
    rewrite (Z.mod_mod_divide h (2 ^ 64) (2 ^ 32))
      by (exists (2 ^ 32); reflexivity).
    rewrite <- Z.add_mod by lia. reflexivity. }
  rewrite E. rewrite Z.mod_small by lia. lia.
Qed.

(** X12: the id of an enumerated record leads back to its device, unless
    the handle is 0.  For every native handle [h] other than 0, creating a
    device with the id enumeration stores for [h] creates the device on [h]
    itself, with no count or handle query. *)
Theorem create_device_uses_enumerated_handle env driver alloc t h s :
  syms driver = Some t -> cuInit t 0 = CUDA_SUCCESS ->
  int_range h -> h <> 0 ->
  iree_hal_cuda_driver_create_device env driver (to_size h) alloc s
  = Some ((device_create_status env h,
           if iree_status_is_ok (device_create_status env h)
           then Some (mk_device "cuda" h) else None),
          after_call (after_call s (CallInit 0)) (CallDeviceCreate "cuda" h)).
Proof.
  intros Ht Hi Hr Hne.
  rewrite (create_device_run _ _ _ _ _ _ Ht Hi).
  rewrite (to_int_to_size h Hr).
  apply Z.eqb_neq in Hne. rewrite Hne. apply device_create_run.
Qed.

Lemma create_device_uses_enumerated_handle_witness :
  let t := simulated_cuda ["A100"; "V100"]%string nowhere nowhere in
  iree_hal_cuda_driver_create_device
    (simulated_env t) (simulated_driver t 0) (to_size (-1)) generous
    heap_with_driver
  = Some ((iree_ok_status, Some (mk_device "cuda" (-1))),
          after_call (after_call heap_with_driver (CallInit 0))
                     (CallDeviceCreate "cuda" (-1))).
Proof.
  intros t.
  apply (create_device_uses_enumerated_handle
           (simulated_env t) (simulated_driver t 0) generous t (-1)
           heap_with_driver eq_refl eq_refl).
  - cbv. split; [discriminate|reflexivity].
  - discriminate.
Defined.

(** X13: a driver created with the initialised options resolves the
    unspecified id to the first device.  The options start with default
    index 0; once such a driver is created, creating a device with the
    unspecified id on a backend that counts at least one device queries the
    native handle at index 0 and creates the device on it. *)
Theorem default_options_select_first_device env ident alloc N s :
  let total := to_size (sizeof_driver env + Z.of_nat (length ident)) in
  let t := library_symbols env in
  iree_status_is_ok (alloc_status alloc total) = true ->
  iree_status_is_ok (library_status env) = true ->
  cuInit t 0 = CUDA_SUCCESS -> cuDeviceGetCount t = (CUDA_SUCCESS, N) ->
  1 <= N ->
  exists d s1,
    iree_hal_cuda_driver_create
      env ident iree_hal_cuda_driver_options_initialize alloc s
    = Some ((iree_ok_status, Some d), s1)
    /\ default_device_index d = 0
    /\ forall alloc' s2,
        let s3 := after_call (after_call (after_call s2 (CallInit 0))
                                         CallDeviceGetCount)
                             (CallDeviceGet 0) in
        iree_hal_cuda_driver_create_device
          env d IREE_HAL_DEVICE_ID_INVALID alloc' s2
        = if fst (cuDeviceGet t 0) =? CUDA_SUCCESS
          then iree_hal_cuda_device_create env "cuda" (snd (cuDeviceGet t 0)) s3
          else Some ((CU_RESULT_TO_STATUS (fst (cuDeviceGet t 0)) "cuDeviceGet",
                      None), s3).
Proof.
  intros total t Ha Hl Hi Hc HN.
  rewrite (create_loaded env ident iree_hal_cuda_driver_options_initialize
             alloc s Ha Hl).
  eexists. eexists. split; [reflexivity|].
  cbn [default_device_index iree_hal_cuda_driver_options_initialize
       opt_default_device_index].
  split; [reflexivity|].
  intros alloc' s2.
  match goal with
  | |- iree_hal_cuda_driver_create_device _ ?d _ _ _ = _ =>
      rewrite (create_device_run env d IREE_HAL_DEVICE_ID_INVALID alloc' t s2
                 eq_refl Hi)
  end.
  change (to_int IREE_HAL_DEVICE_ID_INVALID =? 0) with true. cbv iota.
  unfold bind. rewrite (select_default_device_run _ _ _ _ _ Hc).
  cbn [default_device_index].
  assert ((N =? 0) || (0 >=? N) = false) as ->.
  { apply orb_false_iff. split.
    - apply Z.eqb_neq. lia.
    - rewrite Z.geb_leb. apply Z.leb_gt. lia. }
  cbv zeta. unfold CU_RESULT_TO_STATUS.
  destruct (fst (cuDeviceGet t 0) =? CUDA_SUCCESS); reflexivity.
Qed.

Lemma default_options_select_first_device_witness :
  let t := simulated_cuda ["A100"; "V100"]%string nowhere nowhere in
  exists d s1,
    iree_hal_cuda_driver_create
      (simulated_env t) (list_ascii_of_string "cuda")
      iree_hal_cuda_driver_options_initialize generous heap_with_driver
    = Some ((iree_ok_status, Some d), s1)
    /\ option_map fst
         (iree_hal_cuda_driver_create_device
            (simulated_env t) d IREE_HAL_DEVICE_ID_INVALID generous s1)
       = Some (iree_ok_status, Some (mk_device "cuda" 0)).
Proof.
  intros t.
  assert (HN : 1 <= 2) by (cbv; discriminate).
  destruct (default_options_select_first_device
              (simulated_env t) (list_ascii_of_string "cuda") generous 2
              heap_with_driver eq_refl eq_refl eq_refl eq_refl HN)
    as (d & s1 & Hc & _ & Hsel).
  exists d, s1. split; [exact Hc|].
  rewrite (Hsel generous s1). reflexivity.
Defined.

(** ** The ids of the enumerated records *)

(** C9: enumeration stores as the id of each record the native handle of
    its device converted to an integer; when the native handle of the
    device at index 0 is the integer 0, the id of its record is the
    unspecified id, and creating a device with that id runs default device
    selection instead of using the handle. *)
Theorem enumerated_id_of_first_device_is_unspecified
        env driver alloc t N s :
  syms driver = Some t -> cuDeviceGetCount t = (CUDA_SUCCESS, N) ->
  0 < N < 2 ^ 31 ->
  iree_status_is_ok (alloc_status alloc (query_total_size env N)) = true ->
  terminated env t ->
  cuDeviceGet t 0 = (CUDA_SUCCESS, 0) ->
  exists a s' x,
    iree_hal_cuda_driver_query_available_devices env driver alloc s
    = Some (mk_query_result iree_ok_status (Some (next_block s, a)) (Some N),
            s')
    /\ (forall j y, nth_error a j = Some (Some y) ->
                    device_id y = to_size (handle_at t (Z.of_nat j)))
    /\ nth_error a 0 = Some (Some x)
    /\ device_id x = to_size (handle_at t 0)
    /\ device_id x = IREE_HAL_DEVICE_ID_INVALID
    /\ (cuInit t 0 = CUDA_SUCCESS ->
        forall s2,
          iree_hal_cuda_driver_create_device env driver (device_id x) alloc s2
          = bind (iree_hal_cuda_driver_select_default_device
                    t (default_device_index driver) alloc)
                 (create_on env) (after_call s2 (CallInit 0))).
Proof.
  intros Ht Hc HN Ha T H0.
  assert (HN' : 0 <= N < 2 ^ 31) by lia.
  destruct (query_granted_returns env driver alloc t N s Ht Hc Ha T)
    as (r & s' & H).
  destruct (query_granted_inv _ _ _ _ _ _ _ _ Ht Hc HN' Ha H)
    as (p' & a & E & ->).
  pose proof (count_is_size N HN') as HN64.
  assert (Hb : 0 + Z.of_nat (Z.to_nat N) < 2 ^ 64)
    by (rewrite Z2Nat.id by lia; lia).
  assert (Hj : 0 <= Z.of_nat 0 < 0 + Z.of_nat (Z.to_nat N))
    by (rewrite Z2Nat.id by lia; simpl; lia).
  assert (Hr : forall f, 0 <= f <= Z.of_nat 0 -> resolves t f = true).
  { intros f Hf. assert (f = 0) as -> by (simpl in Hf; lia).
    unfold resolves. change (to_int 0) with 0. rewrite H0. reflexivity. }
  assert (Hl : (0 < length (repeat (@None iree_hal_device_info_t)
                                   (Z.to_nat N)))%nat)
    by (rewrite repeat_length; lia).
  destruct (populate_devices_populated _ _ _ _ _ _ _ _ _ _
              (Z.le_refl 0) Hb E 0%nat Hj Hr Hl) as (x & Hx & Hid).
  assert (Hzero : device_id x = IREE_HAL_DEVICE_ID_INVALID).
  { rewrite Hid. unfold handle_at. change (to_int (Z.of_nat 0)) with 0.
    rewrite H0. reflexivity. }
  exists a, s', x. split; [exact H|]. split.
  { intros j y Hy.
    exact (proj1 (populate_devices_records _ _ _ _ _ _ _ _ _ _
                    (Z.le_refl 0) Hb (unwritten_from_repeat _) E j y
                    (Nat2Z.is_nonneg j) Hy)). }
  split; [exact Hx|]. split; [exact Hid|]. split; [exact Hzero|].
  intros Hi s2. rewrite (create_device_run _ _ _ _ _ _ Ht Hi).
  rewrite Hzero. reflexivity.
Qed.

Lemma enumerated_id_of_first_device_is_unspecified_witness :
  let t := simulated_cuda ["A100"; "V100"]%string nowhere nowhere in
  exists a s' x,
    iree_hal_cuda_driver_query_available_devices
      (simulated_env t) (simulated_driver t 1) generous heap_with_driver
    = Some (mk_query_result iree_ok_status (Some (1%nat, a)) (Some 2), s')
    /\ (forall y, nth_error a 1 = Some (Some y) -> device_id y = 1)
    /\ nth_error a 0 = Some (Some x)
    /\ device_id x = IREE_HAL_DEVICE_ID_INVALID
    /\ (forall s2,
          iree_hal_cuda_driver_create_device
            (simulated_env t) (simulated_driver t 1) (device_id x) generous s2
          = bind (iree_hal_cuda_driver_select_default_device t 1 generous)
                 (create_on (simulated_env t)) (after_call s2 (CallInit 0))).
Proof.
  intros t.
  assert (HN : 0 < 2 < 2 ^ 31) by (cbv; split; reflexivity).
  destruct (enumerated_id_of_first_device_is_unspecified
              (simulated_env t) (simulated_driver t 1) generous t 2
              heap_with_driver eq_refl eq_refl HN eq_refl
              (simulated_terminated _ _ _) eq_refl)
    as (a & s' & x & Hq & Hids & Hx & _ & Hzero & Hsel).
  exists a, s', x. split; [exact Hq|]. split.
  { intros y Hy. exact (Hids 1%nat y Hy). }
  split; [exact Hx|]. split; [exact Hzero|].
  exact (Hsel eq_refl).
Defined.

(** With two devices and the default index 1, creating a device with the
    id enumeration gave for device 0 yields a device on handle 1. *)
Example create_with_enumerated_id_of_first_device :
  let t := simulated_cuda ["A100"; "V100"]%string nowhere nowhere in
  option_map fst
    (iree_hal_cuda_driver_create_device
       (simulated_env t) (simulated_driver t 1) 0 generous heap_with_driver)
  = Some (iree_ok_status, Some (mk_device "cuda" 1)).
Proof. vm_compute. reflexivity. Qed.
